(** * Text Search Counter (text_search.js): a verified model

    A shallow embedding of the term-occurrence counter: the term-group
    loader [readSearchTerms], the occurrence counter [countOccurrences]
    with the regular expression it builds for every term, the file
    enumerator [getFilesToProcess], the table handed to the CSV writer
    by [writeResultsToCsv], and the driver [main]; then the PDF text
    extractor (pdf_extractor.js).  Messages printed to the console and
    elapsed times are left out; the file system, the clock, [path] and the
    serializer of the table are parameters of the model.

    Strings.  A JavaScript string is a sequence of UTF-16 code units.  The
    model uses [string], whose characters are the code units below 256
    (ASCII and the Latin-1 supplement); [toLowerCase], [trim] and the word
    class of the regular expression are given on that range as ECMAScript
    defines them. *)

From Stdlib Require Import String Ascii List Bool Arith Lia Sorting.Sorted Sorting.Permutation.
From Stdlib Require Import DecimalString.
From stdpp Require Import base option gmap strings list.

(** ** Characters *)

Module Char.

Definition code (c : ascii) : nat := nat_of_ascii c.

Definition between (lo hi : nat) (c : ascii) : bool :=
  ((lo <=? code c) && (code c <=? hi))%nat.

(** [String.prototype.toLowerCase] on one code unit below 256: A-Z, and the
    Latin-1 capitals U+00C0..U+00DE except the multiplication sign U+00D7. *)
Definition toLowerCase (c : ascii) : ascii :=
  if between 65 90 c then ascii_of_nat (code c + 32)
  else if between 192 222 c && negb (code c =? 215)%nat then ascii_of_nat (code c + 32)
  else c.

(** The class [\w] that decides [\b] (no [u] or [i] flag): [A-Za-z0-9_]. *)
Definition isWordChar (c : ascii) : bool :=
  between 97 122 c || between 65 90 c || between 48 57 c || (code c =? 95)%nat.

(** WhiteSpace and LineTerminator code units, as removed by [trim]:
    TAB, LF, VT, FF, CR, SP and NBSP. *)
Definition isWhiteSpace (c : ascii) : bool :=
  between 9 13 c || (code c =? 32)%nat || (code c =? 160)%nat.

Definition eqb (a b : ascii) : bool := Ascii.eqb a b.

Definition mem (c : ascii) (l : list ascii) : bool := existsb (eqb c) l.

End Char.

(** Named characters that cannot be written plainly inside a literal. *)
Definition backslash : ascii := "\"%char.
Definition dquote : ascii := "034"%char.
Definition newline : ascii := "010"%char.
Definition slash : ascii := "/"%char.

(** ** String primitives of the runtime *)

Module Str.

Fixpoint map (f : ascii -> ascii) (s : string) : string :=
  match s with
  | EmptyString => EmptyString
  | String c r => String (f c) (map f r)
  end.

(** [s.toLowerCase()] *)
Definition toLowerCase (s : string) : string := map Char.toLowerCase s.

Definition isEmpty (s : string) : bool :=
  match s with EmptyString => true | String _ _ => false end.

Fixpoint trimStart (s : string) : string :=
  match s with
  | EmptyString => EmptyString
  | String c r => if Char.isWhiteSpace c then trimStart r else s
  end.

Fixpoint trimEnd (s : string) : string :=
  match s with
  | EmptyString => EmptyString
  | String c r =>
      let r' := trimEnd r in
      if Char.isWhiteSpace c && isEmpty r' then EmptyString else String c r'
  end.

(** [s.trim()] *)
Definition trim (s : string) : string := trimEnd (trimStart s).

(** [s.split(sep)] for a one-character separator: the piece in progress and
    the pieces after it. *)
Fixpoint splitAux (sep : ascii) (s : string) : string * list string :=
  match s with
  | EmptyString => (EmptyString, [])
  | String c r =>
      let '(piece, pieces) := splitAux sep r in
      if Char.eqb c sep then (EmptyString, piece :: pieces)
      else (String c piece, pieces)
  end.

Definition split (sep : ascii) (s : string) : list string :=
  let '(piece, pieces) := splitAux sep s in piece :: pieces.

(** String concatenation, the [+] of the source. *)
Fixpoint append (a b : string) : string :=
  match a with
  | EmptyString => b
  | String c r => String c (append r b)
  end.

(** Inverse of [split], used to state what [split] returns. *)
Fixpoint join (sep : ascii) (l : list string) : string :=
  match l with
  | [] => EmptyString
  | [s] => s
  | s :: r => append s (String sep (join sep r))
  end.

Fixpoint contains (c : ascii) (s : string) : bool :=
  match s with
  | EmptyString => false
  | String d r => Char.eqb d c || contains c r
  end.

Definition head (s : string) : option ascii :=
  match s with EmptyString => None | String c _ => Some c end.

Fixpoint last (s : string) : option ascii :=
  match s with
  | EmptyString => None
  | String c EmptyString => Some c
  | String _ r => last r
  end.

End Str.

Infix "+^" := Str.append (at level 60, right associativity).

(** ** The regular-expression fragment used by the counter

    [new RegExp(pattern, 'g')] restricted to what the counter can build: word
    boundary assertions, literal characters (plain, or a syntax character after
    a backslash) and a starred character class of literal characters.  On any
    other pattern [compile] answers [None]; [compile_termPattern] shows that
    the counter never builds one. *)

Module RegExp.

Inductive atom : Type :=
| WordBoundary
| Lit (c : ascii)
| ClassStar (cls : list ascii).

(** SyntaxCharacter of the pattern grammar: [^ $ \ . * + ? ( ) [ ] { } |]. *)
Definition syntaxCharacters : list ascii :=
  ["^"; "$"; "\"; "."; "*"; "+"; "?"; "("; ")"; "["; "]"; "{"; "}"; "|"]%char.

Definition isSyntaxChar (c : ascii) : bool := Char.mem c syntaxCharacters.

Inductive pstate : Type :=
| Top
| Escape
| InClass (acc : list ascii)
| InClassEscape (acc : list ascii)
| AfterClass (acc : list ascii).

Fixpoint parseFrom (st : pstate) (p : string) : option (list atom) :=
  match p with
  | EmptyString => match st with Top => Some [] | _ => None end
  | String c r =>
      match st with
      | Top =>
          if Char.eqb c "\" then parseFrom Escape r
          else if Char.eqb c "[" then parseFrom (InClass []) r
          else if isSyntaxChar c then None
          else cons (Lit c) <$> parseFrom Top r
      | Escape =>
          if Char.eqb c "b" then cons WordBoundary <$> parseFrom Top r
          else if isSyntaxChar c then cons (Lit c) <$> parseFrom Top r
          else None
      | InClass acc =>
          if Char.eqb c "\" then parseFrom (InClassEscape acc) r
          else if Char.eqb c "]" then parseFrom (AfterClass acc) r
          else if Char.eqb c "-" then None
          else if Char.eqb c "^" && bool_decide (acc = []) then None
          else parseFrom (InClass (acc ++ [c])) r
      | InClassEscape acc =>
          if isSyntaxChar c then parseFrom (InClass (acc ++ [c])) r else None
      | AfterClass acc =>
          if Char.eqb c "*" then cons (ClassStar acc) <$> parseFrom Top r else None
      end
  end.

Definition compile (pattern : string) : option (list atom) := parseFrom Top pattern.

Definition isWordAt (o : option ascii) : bool :=
  match o with Some c => Char.isWordChar c | None => false end.

(** [\b] between the character before the position ([None] at the start of
    the input) and the one after it ([None] at its end). *)
Definition atBoundary (prev : option ascii) (rest : string) : bool :=
  xorb (isWordAt prev) (isWordAt (Str.head rest)).

(** The backtracking matcher at one position: the length of the match. *)
Fixpoint matchAtoms (atoms : list atom) : option ascii -> string -> option nat :=
  match atoms with
  | [] => fun _ _ => Some 0
  | WordBoundary :: k =>
      fun prev rest => if atBoundary prev rest then matchAtoms k prev rest else None
  | Lit c :: k =>
      fun _ rest =>
        match rest with
        | String d r => if Char.eqb d c then S <$> matchAtoms k (Some d) r else None
        | EmptyString => None
        end
  | ClassStar cls :: k =>
      fix star (prev : option ascii) (rest : string) {struct rest} : option nat :=
        match rest with
        | String d r =>
            if Char.mem d cls then
              match star (Some d) r with
              | Some n => Some (S n)
              | None => matchAtoms k prev rest
              end
            else matchAtoms k prev rest
        | EmptyString => matchAtoms k prev rest
        end
  end.

Fixpoint take (n : nat) (s : string) : string :=
  match n, s with
  | S m, String c r => String c (take m r)
  | _, _ => EmptyString
  end.

(** The loop of [String.prototype.match] for a global expression: try every
    start index from [lastIndex] on; after a match, [lastIndex] is the end of
    the match, advanced by one when the match is empty.  [skip] counts the
    characters still to pass before [lastIndex]. *)
Fixpoint scan (atoms : list atom) (skip : nat) (prev : option ascii) (rest : string)
  {struct rest} : list string :=
  match skip with
  | S k =>
      match rest with
      | String c r => scan atoms k (Some c) r
      | EmptyString => []
      end
  | O =>
      match matchAtoms atoms prev rest with
      | Some n =>
          take n rest ::
            match rest with
            | String c r => scan atoms (Nat.pred n) (Some c) r
            | EmptyString => []
            end
      | None =>
          match rest with
          | String c r => scan atoms 0 (Some c) r
          | EmptyString => []
          end
      end
  end.

(** [s.match(re)] with the [g] flag: every match, or [null] when there is none. *)
Definition globalMatch (atoms : list atom) (s : string) : option (list string) :=
  match scan atoms 0 None s with
  | [] => None
  | m :: ms => Some (m :: ms)
  end.

End RegExp.

(** ** Plain objects used as maps

    [results = {}] holds one numeric own property per assigned key.  An
    assignment [results[k] = n] creates or overwrites the own property [k],
    except for the key [__proto__]: that one reaches the accessor inherited
    from [Object.prototype], which ignores a number, so no property is made. *)

Module JsObject.

Definition protoKey : string := "__proto__".

Definition set (o : gmap string nat) (k : string) (v : nat) : gmap string nat :=
  if String.eqb k protoKey then o else <[k:=v]> o.

Inductive value : Type :=
| Num (n : nat)
| Inherited
| Undefined.

(** The properties every plain object inherits from [Object.prototype]. *)
Definition inheritedKeys : list string :=
  [ "constructor"; "hasOwnProperty"; "isPrototypeOf"; "propertyIsEnumerable";
    "toLocaleString"; "toString"; "valueOf"; "__defineGetter__";
    "__defineSetter__"; "__lookupGetter__"; "__lookupSetter__"; protoKey ].

(** [o[k]] *)
Definition get (o : gmap string nat) (k : string) : value :=
  match o !! k with
  | Some n => Num n
  | None => if existsb (String.eqb k) inheritedKeys then Inherited else Undefined
  end.

End JsObject.

(** A cell handed to the CSV serializer: a string, or whatever
    [results[groupName]] evaluates to. *)
Inductive cell : Type :=
| Text (s : string)
| Value (v : JsObject.value).

(** ** Further string primitives *)

Module Text.

(** [s.replace(/[...]/g, '')]: every character of the class is dropped. *)
Fixpoint removeAll (cls : list ascii) (s : string) : string :=
  match s with
  | EmptyString => EmptyString
  | String c r => if Char.mem c cls then removeAll cls r else String c (removeAll cls r)
  end.

(** [s.replace(/x/g, 'y')] for single characters [x] and [y]. *)
Fixpoint replaceAll (x y : ascii) (s : string) : string :=
  match s with
  | EmptyString => EmptyString
  | String c r => String (if Char.eqb c x then y else c) (replaceAll x y r)
  end.

(** [s.slice(0, n)] *)
Fixpoint take (n : nat) (s : string) : string :=
  match n, s with
  | S m, String c r => String c (take m r)
  | _, _ => EmptyString
  end.

(** [a.slice(-n)]: the last [n] elements, or all of them when there are fewer. *)
Definition lastN {A : Type} (n : nat) (l : list A) : list A :=
  skipn (length l - n) l.

(** A string is truthy when it is not empty. *)
Definition truthy (s : string) : bool := negb (Str.isEmpty s).

Fixpoint length (s : string) : nat :=
  match s with
  | EmptyString => 0
  | String _ r => S (length r)
  end.

Fixpoint allIn (cls : list ascii) (s : string) : bool :=
  match s with
  | EmptyString => true
  | String c r => Char.mem c cls && allIn cls r
  end.

End Text.

(** ** Time stamps

    [new Date().toISOString()] prints the UTC fields of the date as
    [YYYY-MM-DDTHH:mm:ss.sssZ] (years 0 to 9999); both scripts derive the name
    of what they write from it. *)

Record Date : Type := {
  year : nat; month : nat; day : nat;
  hours : nat; minutes : nat; seconds : nat; milliseconds : nat
}.

Definition validDate (d : Date) : Prop :=
  year d < 100 * 100 /\ 1 <= month d <= 12 /\ 1 <= day d <= 31
  /\ hours d <= 23 /\ minutes d <= 59 /\ seconds d <= 59 /\ milliseconds d <= 999.

Definition digit (n : nat) : ascii := ascii_of_nat (48 + n mod 10).

Definition pad2 (n : nat) : string :=
  String (digit (n / 10)) (String (digit n) EmptyString).

Definition pad3 (n : nat) : string := String (digit (n / 100)) (pad2 n).

Definition pad4 (n : nat) : string := String (digit (n / 1000)) (pad3 n).

Definition toISOString (d : Date) : string :=
  pad4 (year d) +^ "-" +^ pad2 (month d) +^ "-" +^ pad2 (day d) +^ "T"
  +^ pad2 (hours d) +^ ":" +^ pad2 (minutes d) +^ ":" +^ pad2 (seconds d)
  +^ "." +^ pad3 (milliseconds d) +^ "Z".

(** [iso.replace(/[:.]/g, '').split('T').join('_').slice(0, 15)] *)
Definition timestamp (iso : string) : string :=
  Text.take 15
    (Str.join "_"%char (Str.split "T"%char (Text.removeAll [":"; "."]%char iso))).

(** ** The environment: file system, clock and libraries *)

Inductive error : Type :=
| ENOENT
| OtherError (message : string).

Inductive result (A : Type) : Type :=
| Ok (a : A)
| Err (e : error).
Arguments Ok {A} a.
Arguments Err {A} e.

Record Stats : Type := { isFile : bool; isDirectory : bool }.

(** What the process reads from and does to its surroundings: the calls of
    [fs-extra], each of which either resolves or rejects with an error, and
    the clock read by [new Date()]. *)
Record FileSystem : Type := {
  readFile : string -> result string;
  stat : string -> result Stats;
  readdir : string -> result (list string);
  ensureDir : string -> result unit;
  writeFile : string -> string -> result unit;
  now : Date
}.

(** The pure libraries: [path], and [stringify] of [csv-stringify/sync]. *)
Record PathLib : Type := {
  join : string -> string -> string;
  basename : string -> string;
  stringify : list (list cell) -> string
}.

(** A value produced by an [async] arrow function is a promise; as the result
    of an [Array.prototype.filter] callback only its truthiness is looked at,
    and an object is truthy whatever it settles to. *)
Inductive promise (A : Type) : Type :=
| Promise (settles : result A).
Arguments Promise {A} settles.

Definition toBoolean {A : Type} (p : promise A) : bool := true.

Definition isErr {A : Type} (r : result A) : bool :=
  match r with
  | Err _ => true
  | Ok _ => false
  end.

Definition rejects {A : Type} (p : promise A) : bool :=
  match p with
  | Promise (Err _) => true
  | Promise (Ok _) => false
  end.

(** [Array.prototype.sort()] without comparator: ascending order of the code
    units of the strings. *)
Module Sort.

Fixpoint leb (a b : string) : bool :=
  match a, b with
  | EmptyString, _ => true
  | String _ _, EmptyString => false
  | String c r, String d s =>
      if (Char.code c <? Char.code d)%nat then true
      else if (Char.code d <? Char.code c)%nat then false
      else leb r s
  end.

Fixpoint insert (x : string) (l : list string) : list string :=
  match l with
  | [] => [x]
  | y :: r => if leb x y then x :: l else y :: insert x r
  end.

Fixpoint sort (l : list string) : list string :=
  match l with
  | [] => []
  | x :: r => insert x (sort r)
  end.

End Sort.

(** The path [writeResultsToCsv] writes the table to. *)
Definition searchResultsFile (path : PathLib) (now : Date) : string :=
  join path "data" ("search_results_" +^ timestamp (toISOString now) +^ ".csv").

(** ** The program *)

Definition termGroup : Type := string * list string.

Inductive outcome : Type :=
| Exit (code : nat)
| Completed (csv : option (list (list cell))).

Module Counter.

(** The class of the [replace] call that escapes a term:
    [/[.*+?^${}()|[\]\\]/g]. *)
Definition escapeClass : list ascii :=
  ["."; "*"; "+"; "?"; "^"; "$"; "{"; "}"; "("; ")"; "|"; "["; "]"; "\"]%char.

(** [term.replace(/[.*+?^${}()|[\]\\]/g, '\\$&')] *)
Fixpoint escapeRegExp (s : string) : string :=
  match s with
  | EmptyString => EmptyString
  | String c r =>
      if Char.mem c escapeClass then String backslash (String c (escapeRegExp r))
      else String c (escapeRegExp r)
  end.

(** The last operand of the pattern concatenation, as the characters the
    literal denotes: a word boundary, then a starred class of closing
    punctuation (full stop, comma, exclamation and question marks, colon,
    semicolon, both quotes, closing parenthesis, bracket and brace). *)
Definition patternSuffix : string :=
  "\b[.,!?:;" +^ String dquote "')\]\}]*".

(** The source text given to [new RegExp] for one term. *)
Definition termPattern (term : string) : string :=
  "\b" +^ escapeRegExp (Str.toLowerCase term) +^ patternSuffix.

(** One turn of the inner loop: [matches ? matches.length : 0], or [None]
    when the [RegExp] constructor throws. *)
Definition countTerm (lowerContent term : string) : option nat :=
  pattern ← RegExp.compile (termPattern term);
  Some (match RegExp.globalMatch pattern lowerContent with
        | Some matches => length matches
        | None => 0
        end).

(** [for (const term of terms) { ... totalCount += ... }] *)
Fixpoint termsLoop (lowerContent : string) (terms : list string) (totalCount : nat)
  : option nat :=
  match terms with
  | [] => Some totalCount
  | term :: rest =>
      n ← countTerm lowerContent term;
      termsLoop lowerContent rest (totalCount + n)
  end.

(** [for (const [groupName, terms] of termGroups) { ... results[groupName] = totalCount }] *)
Fixpoint groupsLoop (lowerContent : string) (termGroups : list termGroup)
  (results : gmap string nat) : option (gmap string nat) :=
  match termGroups with
  | [] => Some results
  | (groupName, terms) :: rest =>
      totalCount ← termsLoop lowerContent terms 0;
      groupsLoop lowerContent rest (JsObject.set results groupName totalCount)
  end.

(** The body of [countOccurrences] once the file has been read. *)
Definition countIn (content : string) (termGroups : list termGroup)
  : option (gmap string nat) :=
  let lowerContent := Str.toLowerCase content in
  groupsLoop lowerContent termGroups ∅.

(** The chain of [readSearchTerms] applied to the content of the terms file. *)
Definition parseTerms (content : string) : list termGroup :=
  List.map
    (fun line => (line, List.map Str.trim (Str.split slash line)))
    (List.filter (fun line => negb (Str.isEmpty line))
       (List.map Str.trim (Str.split newline content))).

Section WithEnvironment.

Variable fs : FileSystem.
Variable path : PathLib.

(** [countOccurrences]: [None] is the [null] of the [catch] branch, taken
    when reading fails or anything in the [try] block throws. *)
Definition countOccurrences (filepath : string) (termGroups : list termGroup)
  : option (gmap string nat) :=
  match readFile fs filepath with
  | Ok content => countIn content termGroups
  | Err _ => None
  end.

Definition readSearchTerms (termsFilepath : string) : option (list termGroup) :=
  match readFile fs termsFilepath with
  | Ok content => Some (parseTerms content)
  | Err _ => None
  end.

(** The callback [async filepath => (await fs.stat(filepath)).isFile()]. *)
Definition isFileAsync (filepath : string) : promise bool :=
  Promise (match stat fs filepath with
           | Ok stats => Ok (isFile stats)
           | Err e => Err e
           end).

Definition getFilesToProcess (inputPath : string) : list string :=
  match stat fs inputPath with
  | Ok stats =>
      if isFile stats then [inputPath]
      else if isDirectory stats then
        match readdir fs inputPath with
        | Ok files =>
            let filePaths :=
              List.filter (fun filepath => toBoolean (isFileAsync filepath))
                (List.map (fun file => join path inputPath file) files) in
            Sort.sort filePaths
        | Err _ => []
        end
      else []
  | Err _ => []
  end.

(** The rows given to [stringify] by [writeResultsToCsv]. *)
Definition csvHeader (termGroups : list termGroup) : list cell :=
  Text "Filename" :: List.map (fun g => Text (fst g)) termGroups.

Definition csvRow (termGroups : list termGroup) (fr : string * gmap string nat)
  : list cell :=
  Text (basename path (fst fr))
    :: List.map (fun g => Value (JsObject.get (snd fr) (fst g))) termGroups.

Definition writeResultsToCsv (fileResults : list (string * gmap string nat))
  (termGroups : list termGroup) : list (list cell) :=
  csvHeader termGroups :: List.map (csvRow termGroups) fileResults.

(** The [for] loop of [main] over [filesToProcess]. *)
Fixpoint processFiles (filesToProcess : list string) (termGroups : list termGroup)
  (fileResults : list (string * gmap string nat))
  : list (string * gmap string nat) :=
  match filesToProcess with
  | [] => fileResults
  | filepath :: rest =>
      match countOccurrences filepath termGroups with
      | Some results =>
          processFiles rest termGroups (fileResults ++ [(filepath, results)])
      | None => processFiles rest termGroups fileResults
      end
  end.

(** The promises the filter callback of [getFilesToProcess] leaves behind,
    one for each entry of a listed directory.  None of them is awaited or
    given a handler: [filter] only looks at their truthiness and
    [Promise.all] is handed the paths. *)
Definition pendingStats (inputPath : string) : list (promise bool) :=
  match stat fs inputPath with
  | Ok stats =>
      if isFile stats then []
      else if isDirectory stats then
        match readdir fs inputPath with
        | Ok files =>
            List.map (fun file => isFileAsync (join path inputPath file)) files
        | Err _ => []
        end
      else []
  | Err _ => []
  end.

(** A promise that rejects without a handler ends the process with exit
    code 1 (the default of the runtime since Node 15), at the time the
    rejected [fs.stat] comes back; the requests were queued when the
    directory was listed, before the first file is opened for reading. *)
Definition unhandledRejection (inputPath : string) : bool :=
  existsb rejects (pendingStats inputPath).

(** The effects of [writeResultsToCsv] around the table: the directory, the
    name from the clock, the serialization and the write.  It resolves to the
    path written, or rejects with the error of [ensureDir] or [writeFile]. *)
Definition saveResults (fileResults : list (string * gmap string nat))
  (termGroups : list termGroup) : result string :=
  match ensureDir fs "data" with
  | Err e => Err e
  | Ok _ =>
      let outputFile := searchResultsFile path (now fs) in
      let csvContent := stringify path (writeResultsToCsv fileResults termGroups) in
      match writeFile fs outputFile csvContent with
      | Ok _ => Ok outputFile
      | Err e => Err e
      end
  end.

(** [main], on [process.argv.slice(2)].  A rejection of [writeResultsToCsv]
    reaches the [catch] under the call of [main], which exits with code 1. *)
Definition main (args : list string) : outcome :=
  match args with
  | [filepath; termsFile] =>
      match readSearchTerms termsFile with
      | None => Exit 1
      | Some termGroups =>
          let filesToProcess := getFilesToProcess filepath in
          if (length filesToProcess =? 0)%nat then Exit 1
          else if unhandledRejection filepath then Exit 1
          else
            let fileResults := processFiles filesToProcess termGroups [] in
            if (length fileResults =? 0)%nat then Completed None
            else
              match saveResults fileResults termGroups with
              | Ok _ => Completed (Some (writeResultsToCsv fileResults termGroups))
              | Err _ => Exit 1
              end
      end
  | _ => Exit 1
  end.

End WithEnvironment.

End Counter.

Import Counter.

(** ** What one scan counts, stated without the pattern text

    The expression built for a term, as atoms, and the match it makes at one
    position written out: a word boundary, the lowercased term character by
    character, a word boundary, then the longest run of closing punctuation. *)

Definition punctuation : list ascii :=
  ["."; ","; "!"; "?"; ":"; ";"; dquote; "'"; ")"; "]"; "}"]%char.

Definition termAtoms (term : string) : list RegExp.atom :=
  RegExp.WordBoundary
    :: List.map RegExp.Lit (list_ascii_of_string (Str.toLowerCase term))
    ++ [RegExp.WordBoundary; RegExp.ClassStar punctuation].

Fixpoint spanLength (cls : list ascii) (s : string) : nat :=
  match s with
  | String d r => if Char.mem d cls then S (spanLength cls r) else 0
  | EmptyString => 0
  end.

Fixpoint afterLiteral (lit : list ascii) (prev : option ascii) (s : string)
  : option (option ascii * string) :=
  match lit with
  | [] => Some (prev, s)
  | c :: lit' =>
      match s with
      | String d r => if Char.eqb d c then afterLiteral lit' (Some d) r else None
      | EmptyString => None
      end
  end.

Definition wholeWordAt (lit : list ascii) (prev : option ascii) (rest : string)
  : option nat :=
  if RegExp.atBoundary prev rest then
    match afterLiteral lit prev rest with
    | Some (prev', rest') =>
        if RegExp.atBoundary prev' rest'
        then Some (length lit + spanLength punctuation rest')
        else None
    | None => None
    end
  else None.

(** The number of whole-word occurrences of [lit] in a text, read from left to
    right, each occurrence taken with the punctuation it absorbs and the next
    one sought after it ([skip] characters are still inside the last one). *)
Fixpoint countWholeWords (lit : list ascii) (skip : nat) (prev : option ascii)
  (rest : string) {struct rest} : nat :=
  match skip with
  | S k =>
      match rest with
      | String c r => countWholeWords lit k (Some c) r
      | EmptyString => 0
      end
  | O =>
      match wholeWordAt lit prev rest with
      | Some n =>
          S match rest with
            | String c r => countWholeWords lit (Nat.pred n) (Some c) r
            | EmptyString => 0
            end
      | None =>
          match rest with
          | String c r => countWholeWords lit 0 (Some c) r
          | EmptyString => 0
          end
      end
  end.

(** The independent count of one alternative in a text. *)
Definition wholeWordCount (text term : string) : nat :=
  countWholeWords (list_ascii_of_string (Str.toLowerCase term)) 0 None text.

Definition groupCount (text : string) (terms : list string) : nat :=
  sum_list (List.map (wholeWordCount text) terms).

(** The assignments of the outer loop, one per group in order. *)
Definition recordGroup (text : string) (results : gmap string nat) (g : termGroup)
  : gmap string nat :=
  JsObject.set results (fst g) (groupCount text (snd g)).

(** ** The loader, stated line by line

    One pass over the lines of the terms file: trim the line; drop it when
    nothing is left; otherwise it labels a group whose alternatives are its
    segments between slashes, each trimmed. *)

Fixpoint groupsOfLines (lines : list string) : list termGroup :=
  match lines with
  | [] => []
  | line :: rest =>
      let label := Str.trim line in
      if Str.isEmpty label then groupsOfLines rest
      else (label, List.map Str.trim (Str.split slash label)) :: groupsOfLines rest
  end.

(** The labels kept from a list of lines, and the group a label stands for. *)
Definition labelsOfLines (lines : list string) : list string :=
  List.filter (fun line => negb (Str.isEmpty line)) (List.map Str.trim lines).

Definition groupOfLabel (label : string) : termGroup :=
  (label, List.map Str.trim (Str.split slash label)).

Fixpoint allWhiteSpace (s : string) : bool :=
  match s with
  | EmptyString => true
  | String c r => Char.isWhiteSpace c && allWhiteSpace r
  end.

Definition notWhiteSpace (o : option ascii) : Prop :=
  match o with Some c => Char.isWhiteSpace c = false | None => True end.

(** ** Environments *)

Definition readable (fs : FileSystem) (p : string) : bool :=
  match readFile fs p with Ok _ => true | Err _ => false end.

(** The same file system with every file content passed through [f]. *)
Definition mapContents (f : string -> string) (fs : FileSystem) : FileSystem :=
  {| readFile p := match readFile fs p with Ok c => Ok (f c) | Err e => Err e end;
     stat := stat fs;
     readdir := readdir fs;
     ensureDir := ensureDir fs;
     writeFile := writeFile fs;
     now := now fs |}.

(** A small tree: a terms file, and a directory [docs] holding one text file
    and one subdirectory. *)
Module Fixture.

Definition text : string := "The Cat sat. The cat ran! cats everywhere.".

Definition terms : string :=
  "cat" +^ String newline ("cat/cats" +^ String newline EmptyString).

Definition regular : Stats := {| isFile := true; isDirectory := false |}.
Definition directory : Stats := {| isFile := false; isDirectory := true |}.

Definition fs : FileSystem :=
  {| readFile p :=
       if String.eqb p "docs/a.txt" then Ok text
       else if String.eqb p "terms.txt" then Ok terms
       else if String.eqb p "docs" || String.eqb p "docs/sub"
            then Err (OtherError "EISDIR: illegal operation on a directory, read")
       else Err ENOENT;
     stat p :=
       if String.eqb p "docs/a.txt" || String.eqb p "terms.txt" then Ok regular
       else if String.eqb p "docs" || String.eqb p "docs/sub" then Ok directory
       else Err ENOENT;
     readdir p :=
       if String.eqb p "docs" then Ok ["sub"; "a.txt"]
       else if String.eqb p "docs/sub" then Ok []
       else Err (OtherError "ENOTDIR: not a directory, scandir");
     ensureDir _ := Ok tt;
     writeFile _ _ := Ok tt;
     now :=
       {| year := 2024; month := 1; day := 15; hours := 10; minutes := 30;
          seconds := 45; milliseconds := 123 |} |}.

(** A plain serializer standing for [stringify]: cells between commas, one
    line for each row. *)
Definition cellText (c : cell) : string :=
  match c with
  | Text s => s
  | Value (JsObject.Num n) => NilZero.string_of_uint (Nat.to_uint n)
  | Value JsObject.Inherited => "{}"
  | Value JsObject.Undefined => EmptyString
  end.

Definition path : PathLib :=
  {| join a b := a +^ String slash b;
     basename p := List.last (Str.split slash p) EmptyString;
     stringify table :=
       Str.join newline
         (List.map (fun row => Str.join ","%char (List.map cellText row)) table)
       +^ String newline EmptyString |}.

End Fixture.

(** ** The PDF text extractor (pdf_extractor.js) *)

Inductive action : Type :=
| EnsureDir (dir : string)
| WriteFile (file text : string).

(** What a run leaves behind: the directories ensured and the files written,
    in order, the value of [successCount], and whether the run reached its
    last statement or was cut short by the outer [catch]. *)
Record run : Type := {
  actions : list action;
  successCount : nat;
  finished : bool
}.

Module PdfExtractor.

(** [fs-extra], [pdf-parse] and the clock.  [readBuffer] is [fs.readFile]
    without an encoding, [readText] is [fs.readFile] with ['utf8'], and [pdf]
    gives the [text] field of what the parser resolves to. *)
Record Env : Type := {
  readBuffer : string -> result string;
  readText : string -> result string;
  pdf : string -> result string;
  ensureDir : string -> result unit;
  writeFile : string -> string -> result unit;
  now : Date
}.

(** The match of [/\.pdf$/i]: a full stop and the letters p, d, f in either
    case, at the end of the input. *)
Definition isPdfExtension (s : string) : bool :=
  match s with
  | String a (String b (String c (String d EmptyString))) =>
      Char.eqb a "." && (Char.eqb b "p" || Char.eqb b "P")
      && (Char.eqb c "d" || Char.eqb c "D") && (Char.eqb d "f" || Char.eqb d "F")
  | _ => false
  end.

(** [s.replace(/\.pdf$/i, '')] *)
Fixpoint stripPdf (s : string) : string :=
  match s with
  | EmptyString => EmptyString
  | String c r => if isPdfExtension s then EmptyString else String c (stripPdf r)
  end.

(** The name of the output file without its extension: the last five parts of
    the path, joined by dashes, less a final [.pdf]. *)
Definition baseName (pdfPath : string) : string :=
  let pathParts := Str.split slash (Text.replaceAll backslash slash pdfPath) in
  let lastParts := Text.lastN 5 pathParts in
  stripPdf (Str.join "-"%char lastParts).

(** [content.split('\n').filter(line => line.trim())] *)
Definition pdfPathsOf (content : string) : list string :=
  List.filter (fun line => Text.truthy (Str.trim line)) (Str.split newline content).

Section WithEnvironment.

Variable env : Env.
Variable path : PathLib.

Definition extractTextFromPdfFile (pdfPath : string) : option string :=
  match readBuffer env pdfPath with
  | Ok dataBuffer =>
      match pdf env dataBuffer with
      | Ok text => Some (Str.trim text)
      | Err _ => None
      end
  | Err _ => None
  end.

Definition outputFilename (outputDir pdfPath : string) : string :=
  join path outputDir (baseName pdfPath +^ ".txt").

(** The [for] loop of [processPdfList]; a rejected [writeFile] leaves it
    through the outer [catch]. *)
Fixpoint pdfLoop (outputDir : string) (pdfPaths : list string) (count : nat)
  (done : list action) : run :=
  match pdfPaths with
  | [] => {| actions := done; successCount := count; finished := true |}
  | pdfPath :: rest =>
      match extractTextFromPdfFile pdfPath with
      | Some extractedText =>
          if Text.truthy extractedText then
            match writeFile env (outputFilename outputDir pdfPath) extractedText with
            | Ok _ =>
                pdfLoop outputDir rest (S count)
                  (done ++ [WriteFile (outputFilename outputDir pdfPath) extractedText])
            | Err _ => {| actions := done; successCount := count; finished := false |}
            end
          else pdfLoop outputDir rest count done
      | None => pdfLoop outputDir rest count done
      end
  end.

Definition outputDirOf (d : Date) : string :=
  join path "data" ("pdf_extracts_" +^ timestamp (toISOString d)).

Definition processPdfList (fileListPath : string) : run :=
  match readText env fileListPath with
  | Err _ => {| actions := []; successCount := 0; finished := false |}
  | Ok content =>
      let pdfPaths := pdfPathsOf content in
      match ensureDir env "data" with
      | Err _ => {| actions := []; successCount := 0; finished := false |}
      | Ok _ =>
          let outputDir := outputDirOf (now env) in
          match ensureDir env outputDir with
          | Err _ =>
              {| actions := [EnsureDir "data"]; successCount := 0; finished := false |}
          | Ok _ =>
              pdfLoop outputDir pdfPaths 0 [EnsureDir "data"; EnsureDir outputDir]
          end
      end
  end.

End WithEnvironment.

End PdfExtractor.

(** The tree of [Fixture] with every text file closed to reading. *)
Definition lockedFs : FileSystem :=
  {| readFile p :=
       if String.eqb p "terms.txt" then Ok Fixture.terms
       else Err (OtherError "EACCES: permission denied");
     stat := stat Fixture.fs;
     readdir := readdir Fixture.fs;
     ensureDir := ensureDir Fixture.fs;
     writeFile := writeFile Fixture.fs;
     now := now Fixture.fs |}.

(** The tree of [Fixture] with one more entry in [docs]: a link named [gone]
    whose target is missing, so that [stat] and [readFile] both fail on it. *)
Definition danglingFs : FileSystem :=
  {| readFile p :=
       if String.eqb p "docs/gone" then Err ENOENT else readFile Fixture.fs p;
     stat p :=
       if String.eqb p "docs/gone" then Err ENOENT else stat Fixture.fs p;
     readdir p :=
       if String.eqb p "docs" then Ok ["sub"; "gone"; "a.txt"]
       else readdir Fixture.fs p;
     ensureDir := ensureDir Fixture.fs;
     writeFile := writeFile Fixture.fs;
     now := now Fixture.fs |}.

(** What a run of the extractor should leave for a listed path, said without
    the code: the text the parser gives for the bytes of the file, trimmed,
    unless the file cannot be read, the parser fails or nothing is left. *)
Definition savedText (env : PdfExtractor.Env) (pdfPath : string) : option string :=
  match PdfExtractor.readBuffer env pdfPath with
  | Ok buffer =>
      match PdfExtractor.pdf env buffer with
      | Ok raw => if Str.isEmpty (Str.trim raw) then None else Some (Str.trim raw)
      | Err _ => None
      end
  | Err _ => None
  end.

(** The writes those texts call for, in the order of the list. *)
Definition savedFiles (env : PdfExtractor.Env) (path : PathLib) (outputDir : string)
  (pdfPaths : list string) : list action :=
  omap (fun pdfPath =>
          WriteFile (join path outputDir (PdfExtractor.baseName pdfPath +^ ".txt"))
            <$> savedText env pdfPath)
    pdfPaths.

Definition writeSucceeds (env : PdfExtractor.Env) (a : action) : Prop :=
  match a with
  | WriteFile file text => isErr (PdfExtractor.writeFile env file text) = false
  | EnsureDir _ => False
  end.

Definition writeFails (env : PdfExtractor.Env) (a : action) : Prop :=
  match a with
  | WriteFile file text => isErr (PdfExtractor.writeFile env file text) = true
  | EnsureDir _ => False
  end.

(** Three listed documents: one that parses, one that holds white space
    only, one that is missing; every write succeeds. *)
Module PdfFixture.

Definition list : string :=
  "in/a.pdf" +^ String newline ("in/blank.pdf" +^ String newline "in/gone.pdf").

Definition env : PdfExtractor.Env :=
  {| PdfExtractor.readBuffer p :=
       if String.eqb p "in/a.pdf" then Ok "%PDF-a"
       else if String.eqb p "in/blank.pdf" then Ok "%PDF-b"
       else Err ENOENT;
     PdfExtractor.readText p :=
       if String.eqb p "list.txt" then Ok list else Err ENOENT;
     PdfExtractor.pdf buffer :=
       if String.eqb buffer "%PDF-a" then Ok (String newline "Hello. ")
       else if String.eqb buffer "%PDF-b" then Ok (String newline "  ")
       else Err (OtherError "Invalid PDF structure");
     PdfExtractor.ensureDir _ := Ok tt;
     PdfExtractor.writeFile _ _ := Ok tt;
     PdfExtractor.now :=
       {| year := 2024; month := 1; day := 15; hours := 10; minutes := 30;
          seconds := 45; milliseconds := 123 |} |}.

End PdfFixture.

(** ** Characters: facts checked on all 256 code units *)

Ltac each_char c := destruct c as [[] [] [] [] [] [] [] []]; vm_compute; try tauto; try congruence.

Lemma toLowerCase_char_idempotent (c : ascii) :
  Char.toLowerCase (Char.toLowerCase c) = Char.toLowerCase c.
Proof. each_char c. Qed.

Lemma escaped_char (c : ascii) :
  Char.mem c escapeClass = true ->
  Char.eqb c "b" = false /\ RegExp.isSyntaxChar c = true.
Proof. each_char c. Qed.

Lemma plain_char (c : ascii) :
  Char.mem c escapeClass = false ->
  Char.eqb c "\" = false /\ Char.eqb c "[" = false /\ RegExp.isSyntaxChar c = false.
Proof. each_char c. Qed.

Lemma char_eqb_eq (a b : ascii) : Char.eqb a b = true <-> a = b.
Proof. apply Ascii.eqb_eq. Qed.

Lemma char_eqb_refl (a : ascii) : Char.eqb a a = true.
Proof. apply Ascii.eqb_refl. Qed.

(** ** Strings *)

Lemma toLowerCase_idempotent (s : string) :
  Str.toLowerCase (Str.toLowerCase s) = Str.toLowerCase s.
Proof.
  induction s as [|c s IH]; [reflexivity|].
  unfold Str.toLowerCase in *. cbn [Str.map].
  now rewrite toLowerCase_char_idempotent, IH.
Qed.

(** ** The pattern built for a term *)

Lemma parseFrom_escapeRegExp (s rest : string) :
  RegExp.parseFrom RegExp.Top (escapeRegExp s +^ rest)
  = app (List.map RegExp.Lit (list_ascii_of_string s)) <$> RegExp.parseFrom RegExp.Top rest.
Proof.
  induction s as [|c s IH].
  - cbn. now destruct (RegExp.parseFrom RegExp.Top rest).
  - cbn [escapeRegExp]. destruct (Char.mem c escapeClass) eqn:E.
    + destruct (escaped_char c E) as [Hb Hs].
      cbn [Str.append RegExp.parseFrom]. unfold backslash.
      rewrite char_eqb_refl. rewrite Hb, Hs, IH.
      cbn. now destruct (RegExp.parseFrom RegExp.Top rest).
    + destruct (plain_char c E) as (H1 & H2 & H3).
      cbn [Str.append RegExp.parseFrom].
      rewrite H1, H2, H3, IH.
      cbn. now destruct (RegExp.parseFrom RegExp.Top rest).
Qed.

Lemma compile_patternSuffix :
  RegExp.parseFrom RegExp.Top patternSuffix
  = Some [RegExp.WordBoundary; RegExp.ClassStar punctuation].
Proof. reflexivity. Qed.

(** The constructor never throws on a pattern the counter builds, and the
    expression it yields matches the lowercased term character by character. *)
Lemma compile_termPattern (term : string) :
  RegExp.compile (termPattern term) = Some (termAtoms term).
Proof.
  unfold RegExp.compile, termPattern, termAtoms.
  change ("\b" +^ ?x) with (String "\" (String "b" x)).
  cbn [RegExp.parseFrom]. rewrite char_eqb_refl.
  rewrite parseFrom_escapeRegExp, compile_patternSuffix. reflexivity.
Qed.

Lemma matchAtoms_boundary (k : list RegExp.atom) (prev : option ascii) (rest : string) :
  RegExp.matchAtoms (RegExp.WordBoundary :: k) prev rest
  = if RegExp.atBoundary prev rest then RegExp.matchAtoms k prev rest else None.
Proof. reflexivity. Qed.

Lemma matchAtoms_classStar (cls : list ascii) (prev : option ascii) (rest : string) :
  RegExp.matchAtoms [RegExp.ClassStar cls] prev rest = Some (spanLength cls rest).
Proof.
  revert prev. induction rest as [|d r IH]; intros prev; [reflexivity|].
  cbn in *. destruct (Char.mem d cls); [|reflexivity].
  now rewrite IH.
Qed.

Lemma matchAtoms_literal (lit : list ascii) (k : list RegExp.atom)
  (prev : option ascii) (rest : string) :
  RegExp.matchAtoms (List.map RegExp.Lit lit ++ k) prev rest
  = match afterLiteral lit prev rest with
    | Some (prev', rest') => Nat.add (length lit) <$> RegExp.matchAtoms k prev' rest'
    | None => None
    end.
Proof.
  revert prev rest. induction lit as [|c lit IH]; intros prev rest.
  - cbn. now destruct (RegExp.matchAtoms k prev rest).
  - cbn [List.map app RegExp.matchAtoms afterLiteral].
    destruct rest as [|d r]; [reflexivity|].
    destruct (Char.eqb d c); [|reflexivity].
    rewrite IH. destruct (afterLiteral lit (Some d) r) as [[p' r']|]; [|reflexivity].
    cbn. now destruct (RegExp.matchAtoms k p' r').
Qed.

(** At one position the expression of a term matches exactly a whole-word
    occurrence of the lowercased term, and takes the punctuation after it. *)
Lemma matchAtoms_termAtoms (term : string) (prev : option ascii) (rest : string) :
  RegExp.matchAtoms (termAtoms term) prev rest
  = wholeWordAt (list_ascii_of_string (Str.toLowerCase term)) prev rest.
Proof.
  unfold termAtoms, wholeWordAt. rewrite matchAtoms_boundary.
  destruct (RegExp.atBoundary prev rest); [|reflexivity].
  rewrite matchAtoms_literal.
  destruct (afterLiteral _ prev rest) as [[p' r']|]; [|reflexivity].
  rewrite matchAtoms_boundary.
  destruct (RegExp.atBoundary p' r'); [|reflexivity].
  rewrite matchAtoms_classStar. reflexivity.
Qed.

(** ** The scan of one term *)

Lemma scan_termAtoms (term : string) (skip : nat) (prev : option ascii) (rest : string) :
  length (RegExp.scan (termAtoms term) skip prev rest)
  = countWholeWords (list_ascii_of_string (Str.toLowerCase term)) skip prev rest.
Proof.
  revert skip prev. induction rest as [|c r IH]; intros skip prev.
  - destruct skip; cbn [RegExp.scan countWholeWords]; [|reflexivity].
    rewrite matchAtoms_termAtoms. now destruct (wholeWordAt _ prev "").
  - destruct skip; cbn [RegExp.scan countWholeWords]; [|apply IH].
    rewrite matchAtoms_termAtoms.
    destruct (wholeWordAt _ prev (String c r)); cbn [length]; now rewrite IH.
Qed.

Lemma countTerm_eq (lowerContent term : string) :
  countTerm lowerContent term = Some (wholeWordCount lowerContent term).
Proof.
  unfold countTerm. rewrite compile_termPattern. cbn.
  unfold RegExp.globalMatch, wholeWordCount.
  rewrite <- scan_termAtoms. now destruct (RegExp.scan _ 0 None lowerContent).
Qed.

Lemma termsLoop_eq (lowerContent : string) (terms : list string) (totalCount : nat) :
  termsLoop lowerContent terms totalCount
  = Some (totalCount + groupCount lowerContent terms).
Proof.
  revert totalCount. induction terms as [|term rest IH]; intros totalCount.
  - cbn. f_equal. unfold groupCount. cbn. lia.
  - cbn [termsLoop]. rewrite countTerm_eq. cbn. rewrite IH.
    f_equal. unfold groupCount. cbn. lia.
Qed.

Lemma groupsLoop_eq (lowerContent : string) (termGroups : list termGroup)
  (results : gmap string nat) :
  groupsLoop lowerContent termGroups results
  = Some (fold_left (recordGroup lowerContent) termGroups results).
Proof.
  revert results. induction termGroups as [|[groupName terms] rest IH]; intros results.
  - reflexivity.
  - cbn [groupsLoop fold_left]. rewrite termsLoop_eq. cbn. apply IH.
Qed.

(** The counter returns an object for every content: nothing in the [try]
    block throws once the file has been read. *)
Lemma countIn_eq (content : string) (termGroups : list termGroup) :
  countIn content termGroups
  = Some (fold_left (recordGroup (Str.toLowerCase content)) termGroups ∅).
Proof. apply groupsLoop_eq. Qed.

(** ** Assignments to the result object *)

Lemma set_lookup_eq (o : gmap string nat) (k : string) (v : nat) :
  k <> JsObject.protoKey -> JsObject.set o k v !! k = Some v.
Proof.
  intros Hk. unfold JsObject.set.
  destruct (String.eqb k JsObject.protoKey) eqn:E.
  - apply String.eqb_eq in E. contradiction.
  - apply lookup_insert_eq.
Qed.

Lemma set_lookup_ne (o : gmap string nat) (k k' : string) (v : nat) :
  k <> k' -> JsObject.set o k v !! k' = o !! k'.
Proof.
  intros Hk. unfold JsObject.set.
  destruct (String.eqb k JsObject.protoKey); [reflexivity|].
  now apply lookup_insert_ne.
Qed.

Lemma set_protoKey (o : gmap string nat) (v : nat) :
  JsObject.set o JsObject.protoKey v = o.
Proof. reflexivity. Qed.

Lemma recordGroups_lookup (text : string) (termGroups : list termGroup)
  (results : gmap string nat) (groupName : string) (terms : list string) :
  (forall terms', In (groupName, terms') termGroups -> terms' = terms) ->
  groupName <> JsObject.protoKey ->
  fold_left (recordGroup text) termGroups results !! groupName
  = if existsb (String.eqb groupName) (List.map fst termGroups)
    then Some (groupCount text terms)
    else results !! groupName.
Proof.
  intros Hfun Hk. revert results Hfun.
  induction termGroups as [|[g t] rest IH]; intros results Hfun; [reflexivity|].
  cbn [fold_left List.map existsb fst].
  rewrite IH by (intros t' Ht'; apply Hfun; now right).
  destruct (existsb (String.eqb groupName) (List.map fst rest)).
  - now rewrite orb_true_r.
  - rewrite orb_false_r. unfold recordGroup. cbn [fst snd].
    destruct (String.eqb groupName g) eqn:E.
    + apply String.eqb_eq in E. subst g.
      rewrite (Hfun t) by now left. now apply set_lookup_eq.
    + apply String.eqb_neq in E. apply set_lookup_ne. congruence.
Qed.

Lemma existsb_label (groupName : string) (terms : list string) (termGroups : list termGroup) :
  In (groupName, terms) termGroups ->
  existsb (String.eqb groupName) (List.map fst termGroups) = true.
Proof.
  intros Hin. apply existsb_exists. exists groupName. split.
  - apply in_map_iff. now exists (groupName, terms).
  - apply String.eqb_refl.
Qed.

(** ** Splitting and trimming *)

Lemma split_cons (sep c : ascii) (r : string) :
  Str.split sep (String c r)
  = if Char.eqb c sep then EmptyString :: Str.split sep r
    else match Str.split sep r with
         | piece :: pieces => String c piece :: pieces
         | [] => [String c EmptyString]
         end.
Proof.
  unfold Str.split. cbn [Str.splitAux].
  destruct (Str.splitAux sep r) as [piece pieces].
  now destruct (Char.eqb c sep).
Qed.

Lemma split_nonempty (sep : ascii) (s : string) : Str.split sep s <> [].
Proof. unfold Str.split. now destruct (Str.splitAux sep s). Qed.

Lemma join_cons (sep : ascii) (s t : string) (l : list string) :
  Str.join sep (s :: t :: l) = s +^ String sep (Str.join sep (t :: l)).
Proof. reflexivity. Qed.

Lemma split_join (sep : ascii) (s : string) : Str.join sep (Str.split sep s) = s.
Proof.
  induction s as [|c r IH]; [reflexivity|].
  rewrite split_cons. pose proof (split_nonempty sep r) as Hne.
  destruct (Str.split sep r) as [|piece pieces]; [contradiction|].
  destruct (Char.eqb c sep) eqn:E.
  - apply char_eqb_eq in E. subst c. rewrite join_cons, IH. reflexivity.
  - destruct pieces as [|q qs].
    + cbn in *. now rewrite IH.
    + rewrite join_cons in *. cbn [Str.append]. now rewrite IH.
Qed.

Lemma split_pieces_free (sep : ascii) (s : string) :
  Forall (fun piece => Str.contains sep piece = false) (Str.split sep s).
Proof.
  induction s as [|c r IH]; [repeat constructor|].
  rewrite split_cons. pose proof (split_nonempty sep r) as Hne.
  destruct (Str.split sep r) as [|piece pieces]; [contradiction|].
  destruct (Char.eqb c sep) eqn:E.
  - constructor; [reflexivity|exact IH].
  - inversion IH as [|? ? Hp Hps]; subst. constructor; [|exact Hps].
    cbn [Str.contains]. now rewrite E, Hp.
Qed.

Lemma trimStart_spec (s : string) :
  exists a, s = a +^ Str.trimStart s /\ allWhiteSpace a = true
            /\ notWhiteSpace (Str.head (Str.trimStart s)).
Proof.
  induction s as [|c r (a & Ha & Hw & Hh)].
  - exists EmptyString. now cbn.
  - cbn [Str.trimStart]. destruct (Char.isWhiteSpace c) eqn:E.
    + exists (String c a). cbn. rewrite E, Hw. now rewrite <- Ha.
    + exists EmptyString. now cbn.
Qed.

Lemma trimEnd_spec (s : string) :
  exists b, s = Str.trimEnd s +^ b /\ allWhiteSpace b = true
            /\ notWhiteSpace (Str.last (Str.trimEnd s)).
Proof.
  induction s as [|c r (b & Hb & Hw & Hl)].
  - exists EmptyString. now cbn.
  - cbn [Str.trimEnd].
    destruct (Char.isWhiteSpace c && Str.isEmpty (Str.trimEnd r)) eqn:E.
    + apply andb_true_iff in E as [Ec Ee].
      destruct (Str.trimEnd r); [|discriminate].
      exists (String c b). cbn in *. now rewrite Ec, Hw, <- Hb.
    + exists b. cbn [Str.append]. rewrite <- Hb. repeat split; [exact Hw|].
      cbn [Str.last]. destruct (Str.trimEnd r) as [|d t]; [|exact Hl].
      cbn in E. rewrite andb_true_r in E. exact E.
Qed.

Lemma trimEnd_head (s : string) :
  notWhiteSpace (Str.head s) -> Str.head (Str.trimEnd s) = Str.head s.
Proof.
  destruct s as [|c r]; [reflexivity|].
  cbn. intros Hc. now rewrite Hc.
Qed.

(** [trim] removes a run of white space at both ends, and nothing else. *)
Lemma trim_spec (s : string) :
  exists a b, s = a +^ Str.trim s +^ b
              /\ allWhiteSpace a = true /\ allWhiteSpace b = true
              /\ notWhiteSpace (Str.head (Str.trim s))
              /\ notWhiteSpace (Str.last (Str.trim s)).
Proof.
  unfold Str.trim.
  destruct (trimStart_spec s) as (a & Ha & Hwa & Hh).
  destruct (trimEnd_spec (Str.trimStart s)) as (b & Hb & Hwb & Hl).
  exists a, b. repeat split; try assumption.
  - now rewrite <- Hb.
  - now rewrite trimEnd_head.
Qed.

(** ** The loader *)

Lemma parseTerms_lines (lines : list string) :
  List.map
    (fun line => (line, List.map Str.trim (Str.split slash line)))
    (List.filter (fun line => negb (Str.isEmpty line)) (List.map Str.trim lines))
  = groupsOfLines lines.
Proof.
  induction lines as [|line rest IH]; [reflexivity|].
  cbn [List.map List.filter groupsOfLines].
  destruct (Str.isEmpty (Str.trim line)); cbn [negb List.map]; now rewrite IH.
Qed.

Lemma groupsOfLines_alternatives (lines : list string) :
  Forall (fun g : termGroup => snd g <> []) (groupsOfLines lines).
Proof.
  induction lines as [|line rest IH]; [constructor|].
  cbn [groupsOfLines]. destruct (Str.isEmpty (Str.trim line)); [exact IH|].
  constructor; [|exact IH]. cbn [snd].
  pose proof (split_nonempty slash (Str.trim line)) as Hne.
  now destruct (Str.split slash (Str.trim line)).
Qed.

(** In loader output the label decides the alternatives. *)
Lemma groupsOfLines_functional (lines : list string) (g : string) (terms : list string) :
  In (g, terms) (groupsOfLines lines) ->
  terms = List.map Str.trim (Str.split slash g).
Proof.
  induction lines as [|line rest IH]; [contradiction|].
  cbn [groupsOfLines]. destruct (Str.isEmpty (Str.trim line)); [exact IH|].
  intros [Heq|Hin]; [|now apply IH]. now inversion Heq.
Qed.

(** ** Sorting *)

Lemma leb_total (a b : string) : Sort.leb a b = false -> Sort.leb b a = true.
Proof.
  revert b. induction a as [|c r IH]; intros [|d s]; cbn [Sort.leb]; try congruence.
  destruct (Char.code c <? Char.code d)%nat eqn:E1; [discriminate|].
  destruct (Char.code d <? Char.code c)%nat eqn:E2; [reflexivity|].
  apply IH.
Qed.

Lemma insert_perm (x : string) (l : list string) :
  Permutation (Sort.insert x l) (x :: l).
Proof.
  induction l as [|y r IH]; [reflexivity|].
  cbn. destruct (Sort.leb x y); [reflexivity|].
  rewrite IH. apply perm_swap.
Qed.

Lemma sort_perm (l : list string) : Permutation (Sort.sort l) l.
Proof.
  induction l as [|x r IH]; [reflexivity|].
  cbn. rewrite insert_perm. now constructor.
Qed.

Lemma insert_sorted (x : string) (l : list string) :
  Sorted (fun a b => Sort.leb a b = true) l ->
  Sorted (fun a b => Sort.leb a b = true) (Sort.insert x l).
Proof.
  induction l as [|y r IH]; intros Hs; cbn.
  - repeat constructor.
  - destruct (Sort.leb x y) eqn:E.
    + constructor; [exact Hs|]. now constructor.
    + inversion Hs as [|? ? Hr Hhd]; subst. constructor; [now apply IH|].
      destruct r as [|z t]; cbn.
      * constructor. now apply leb_total.
      * destruct (Sort.leb x z); constructor; [now apply leb_total|].
        now inversion Hhd.
Qed.

Lemma sort_sorted (l : list string) :
  Sorted (fun a b => Sort.leb a b = true) (Sort.sort l).
Proof.
  induction l as [|x r IH]; [constructor|]. now apply insert_sorted.
Qed.

(** ** The enumerator *)

Lemma filter_truthy_promise (fs : FileSystem) (l : list string) :
  List.filter (fun filepath => toBoolean (isFileAsync fs filepath)) l = l.
Proof.
  induction l as [|x r IH]; [reflexivity|]. cbn. now rewrite IH.
Qed.

Lemma getFilesToProcess_file (fs : FileSystem) (path : PathLib) (p : string) (stats : Stats) :
  stat fs p = Ok stats -> isFile stats = true ->
  getFilesToProcess fs path p = [p].
Proof. intros Hs Hf. unfold getFilesToProcess. now rewrite Hs, Hf. Qed.

(** For a directory the enumerator answers every entry, whatever its kind. *)
Lemma getFilesToProcess_directory (fs : FileSystem) (path : PathLib) (p : string)
  (stats : Stats) (files : list string) :
  stat fs p = Ok stats -> isFile stats = false -> isDirectory stats = true ->
  readdir fs p = Ok files ->
  getFilesToProcess fs path p = Sort.sort (List.map (join path p) files).
Proof.
  intros Hs Hf Hd Hr. unfold getFilesToProcess.
  rewrite Hs, Hf, Hd, Hr. now rewrite filter_truthy_promise.
Qed.

Lemma getFilesToProcess_other (fs : FileSystem) (path : PathLib) (p : string) :
  match stat fs p with
  | Ok stats => isFile stats = false /\ isDirectory stats = false
  | Err _ => True
  end ->
  getFilesToProcess fs path p = [].
Proof.
  unfold getFilesToProcess. destruct (stat fs p) as [stats|e]; [|reflexivity].
  intros [Hf Hd]. now rewrite Hf, Hd.
Qed.

(** ** The driver *)

Lemma countOccurrences_eq (fs : FileSystem) (p : string) (termGroups : list termGroup) :
  countOccurrences fs p termGroups
  = match readFile fs p with
    | Ok content =>
        Some (fold_left (recordGroup (Str.toLowerCase content)) termGroups ∅)
    | Err _ => None
    end.
Proof.
  unfold countOccurrences. destruct (readFile fs p); [apply countIn_eq|reflexivity].
Qed.

Lemma countOccurrences_unreadable (fs : FileSystem) (p : string) (termGroups : list termGroup) :
  readable fs p = false -> countOccurrences fs p termGroups = None.
Proof.
  unfold readable. rewrite countOccurrences_eq. now destruct (readFile fs p).
Qed.

Lemma countOccurrences_readable (fs : FileSystem) (p : string) (termGroups : list termGroup) :
  readable fs p = true -> exists results, countOccurrences fs p termGroups = Some results.
Proof.
  unfold readable. rewrite countOccurrences_eq.
  destruct (readFile fs p); [eauto|discriminate].
Qed.

Lemma processFiles_acc (fs : FileSystem) (files : list string) (termGroups : list termGroup)
  (acc : list (string * gmap string nat)) :
  processFiles fs files termGroups acc = acc ++ processFiles fs files termGroups [].
Proof.
  revert acc. induction files as [|p rest IH]; intros acc; cbn [processFiles].
  - now rewrite app_nil_r.
  - destruct (countOccurrences fs p termGroups) as [results|]; [|apply IH].
    rewrite IH. rewrite (IH ([] ++ _)). now rewrite <- app_assoc.
Qed.

Lemma processFiles_readable (fs : FileSystem) (files : list string) (termGroups : list termGroup) :
  Forall2 (fun p fr => fst fr = p /\ countOccurrences fs p termGroups = Some (snd fr))
    (List.filter (readable fs) files) (processFiles fs files termGroups []).
Proof.
  induction files as [|p rest IH]; [constructor|].
  cbn [processFiles List.filter].
  destruct (readable fs p) eqn:E.
  - destruct (countOccurrences_readable fs p termGroups E) as [results Hr].
    rewrite Hr, processFiles_acc. cbn [app]. constructor; [now split|exact IH].
  - now rewrite (countOccurrences_unreadable fs p termGroups E).
Qed.

Lemma recordGroups_protoKey (text : string) (termGroups : list termGroup)
  (results : gmap string nat) :
  fold_left (recordGroup text) termGroups results !! JsObject.protoKey
  = results !! JsObject.protoKey.
Proof.
  revert results. induction termGroups as [|[g t] rest IH]; intros results; [reflexivity|].
  cbn [fold_left]. rewrite IH. unfold recordGroup, JsObject.set. cbn [fst snd].
  destruct (String.eqb g JsObject.protoKey) eqn:E; [reflexivity|].
  apply String.eqb_neq in E. now apply lookup_insert_ne.
Qed.

(** A group labelled [__proto__] leaves no count in the result object: the
    assignment of its total makes no property. *)
Lemma countIn_protoKey (content : string) (termGroups : list termGroup)
  (results : gmap string nat) :
  countIn content termGroups = Some results -> results !! JsObject.protoKey = None.
Proof.
  rewrite countIn_eq. intros [= <-]. now rewrite recordGroups_protoKey.
Qed.

(** * The claims *)

(** C1.  For every content and every list of groups, the counter assigns to
    each group, in order, the sum over the alternatives of the group of the
    whole-word count of each alternative taken on its own in the lowercased
    content (occurrences read left to right between word boundaries, each with
    the closing punctuation it absorbs); for a group of two alternatives that
    is the count of the first plus the count of the second, nothing being
    removed where their occurrences overlap, as for [york] and [new york] in
    [new york]; and the sum is the value found under the group's label in the
    object returned, for every group whose label names its alternatives (as
    every loaded group does) and is an ordinary property name. *)
Theorem group_count_is_sum_over_alternatives :
  (forall (content : string) (termGroups : list termGroup),
      countIn content termGroups
      = Some (fold_left
                (fun results g =>
                   JsObject.set results (fst g)
                     (sum_list (List.map (wholeWordCount (Str.toLowerCase content)) (snd g))))
                termGroups ∅))
  /\ (forall (content groupName a b : string),
         countIn content [(groupName, [a; b])]
         = Some (JsObject.set ∅ groupName
                   (wholeWordCount (Str.toLowerCase content) a
                    + wholeWordCount (Str.toLowerCase content) b)))
  /\ (wholeWordCount "new york" "york" = 1
      /\ wholeWordCount "new york" "new york" = 1
      /\ countIn "new york" [("york/new york", ["york"; "new york"])]
         = Some {[ "york/new york" := 2 ]})
  /\ (forall (content : string) (termGroups : list termGroup)
             (groupName : string) (terms : list string),
         In (groupName, terms) termGroups ->
         (forall terms', In (groupName, terms') termGroups -> terms' = terms) ->
         groupName <> JsObject.protoKey ->
         exists results,
           countIn content termGroups = Some results
           /\ results !! groupName
              = Some (sum_list (List.map (wholeWordCount (Str.toLowerCase content)) terms))).
Proof.
  split; [|split; [|split]].
  - intros content termGroups. apply countIn_eq.
  - intros content groupName a b. rewrite countIn_eq. cbn [fold_left].
    unfold recordGroup, groupCount. cbn. do 2 f_equal. lia.
  - split; [vm_compute; reflexivity|]. split; [vm_compute; reflexivity|].
    rewrite countIn_eq. reflexivity.
  - intros content termGroups groupName terms Hin Hfun Hk.
    eexists. split; [apply countIn_eq|].
    rewrite (recordGroups_lookup _ _ _ _ terms Hfun Hk).
    now rewrite (existsb_label _ _ _ Hin).
Qed.

Lemma group_count_is_sum_over_alternatives_witness :
  In ("cat/dog", ["cat"; "dog"]) [("cat/dog", ["cat"; "dog"])]
  /\ "cat/dog" <> JsObject.protoKey
  /\ exists results,
      countIn "a cat, a dog: cat." [("cat/dog", ["cat"; "dog"])] = Some results
      /\ results !! "cat/dog"
         = Some (sum_list (List.map (wholeWordCount (Str.toLowerCase "a cat, a dog: cat."))
                             ["cat"; "dog"])).
Proof.
  split; [now left|]. split; [discriminate|].
  apply (proj2 (proj2 (proj2 group_count_is_sum_over_alternatives))).
  - now left.
  - intros terms' [Heq|[]]. now inversion Heq.
  - discriminate.
Defined.

(** C2, at the failing input.  The expression built for a term matches it as
    literal text, whatever characters it holds: a word boundary, the
    characters of the lowercased term one by one, a word boundary and the
    punctuation class.  Yet on the text [c++ is fast] the group [c++] gets
    count 0, not 1: after the last [+] the boundary needs a word character
    next, and a space follows.  The term is counted where it is glued to a
    word, as in [c++x is fast]. *)
Theorem cpp_is_not_counted_before_a_space :
  (forall term : string, RegExp.compile (termPattern term) = Some (termAtoms term))
  /\ RegExp.scan (termAtoms "c++") 0 None "c++ is fast" = []
  /\ (exists results,
         countIn "c++ is fast" [("c++", ["c++"])] = Some results
         /\ results !! "c++" = Some 0)
  /\ (~ exists results,
         countIn "c++ is fast" [("c++", ["c++"])] = Some results
         /\ results !! "c++" = Some 1)
  /\ (exists results,
         countIn "c++x is fast" [("c++", ["c++"])] = Some results
         /\ results !! "c++" = Some 1).
Proof.
  split; [exact compile_termPattern|].
  split; [vm_compute; reflexivity|].
  split; [eexists; split; [apply countIn_eq|]; vm_compute; reflexivity|].
  split; [|eexists; split; [apply countIn_eq|]; vm_compute; reflexivity].
  intros (results & Hr & H1). rewrite countIn_eq in Hr.
  injection Hr as <-. vm_compute in H1. discriminate.
Qed.

(** C3, as stated, fails: against the text [c++] the group [c] does not get
    count 0. *)
Lemma bare_c_is_counted_inside_cpp :
  ~ exists results,
      countIn "c++" [("c", ["c"])] = Some results /\ results !! "c" = Some 0.
Proof.
  intros (results & Hr & H0). rewrite countIn_eq in Hr.
  injection Hr as <-. vm_compute in H0. discriminate.
Qed.

(** C3, amended.  Against a text holding only the token [c++] the group [c]
    gets count 1: [+] is not a word character, so [c] stands between two word
    boundaries, and the one match is the character [c]. *)
Theorem bare_c_matches_inside_cpp :
  (exists results,
      countIn "c++" [("c", ["c"])] = Some results /\ results !! "c" = Some 1)
  /\ RegExp.scan (termAtoms "c") 0 None "c++" = ["c"].
Proof.
  split; [eexists; split; [apply countIn_eq|]|]; vm_compute; reflexivity.
Qed.

(** C4.  On [the cat sat. the cat ran! cats everywhere.], the lowercased form
    of [The Cat sat. The cat ran! cats everywhere.], the line [cat] gets 2 and
    the line [cat/cats] gets 2 + 1 = 3; the counter gives the same on the
    text as first written. *)
Theorem cat_end_to_end :
  Str.toLowerCase "The Cat sat. The cat ran! cats everywhere."
  = "the cat sat. the cat ran! cats everywhere."
  /\ parseTerms Fixture.terms = [("cat", ["cat"]); ("cat/cats", ["cat"; "cats"])]
  /\ wholeWordCount "the cat sat. the cat ran! cats everywhere." "cat" = 2
  /\ wholeWordCount "the cat sat. the cat ran! cats everywhere." "cats" = 1
  /\ (exists results,
         countIn "the cat sat. the cat ran! cats everywhere." (parseTerms Fixture.terms)
         = Some results
         /\ results !! "cat" = Some 2 /\ results !! "cat/cats" = Some 3)
  /\ (exists results,
         countIn "The Cat sat. The cat ran! cats everywhere." (parseTerms Fixture.terms)
         = Some results
         /\ results !! "cat" = Some 2 /\ results !! "cat/cats" = Some 3).
Proof.
  repeat split; try (vm_compute; reflexivity);
    (eexists; split; [apply countIn_eq|]); vm_compute; split; reflexivity.
Qed.

(** C5.  On [it works, well.] the group [works] gets count 1, its one match
    taking the comma with it, and the group [well] gets count 1, whether the
    two are counted in one call or each on its own. *)
Theorem trailing_punctuation_is_absorbed :
  RegExp.scan (termAtoms "works") 0 None "it works, well." = ["works,"]
  /\ RegExp.scan (termAtoms "well") 0 None "it works, well." = ["well."]
  /\ (exists results,
         countIn "it works, well." [("works", ["works"])] = Some results
         /\ results !! "works" = Some 1)
  /\ (exists results,
         countIn "it works, well." [("well", ["well"])] = Some results
         /\ results !! "well" = Some 1)
  /\ (exists results,
         countIn "it works, well." [("works", ["works"]); ("well", ["well"])] = Some results
         /\ results !! "works" = Some 1 /\ results !! "well" = Some 1).
Proof.
  split; [vm_compute; reflexivity|]. split; [vm_compute; reflexivity|].
  repeat split; (eexists; split; [apply countIn_eq|]); vm_compute; try split; reflexivity.
Qed.

(** C6.  The loader cuts the content at every newline (the pieces, joined by
    newlines, give the content back, and none holds a newline), trims each
    line, drops the lines left empty, and makes of each other line, in order,
    one group labelled by the trimmed line with the trimmed segments between
    its slashes as alternatives; a terms file holding [cat], an empty line and
    [dog] gives the two groups [cat] and [dog], in that order. *)
Theorem loader_groups_follow_the_lines :
  (forall content : string,
      parseTerms content = groupsOfLines (Str.split newline content))
  /\ (forall content : string,
         Str.join newline (Str.split newline content) = content
         /\ Forall (fun line => Str.contains newline line = false)
              (Str.split newline content))
  /\ (forall (fs : FileSystem) (termsFilepath : string),
         readSearchTerms fs termsFilepath
         = match readFile fs termsFilepath with
           | Ok content => Some (groupsOfLines (Str.split newline content))
           | Err _ => None
           end)
  /\ parseTerms ("cat" +^ String newline (String newline ("dog" +^ String newline "")))
     = [("cat", ["cat"]); ("dog", ["dog"])].
Proof.
  assert (Hp : forall content, parseTerms content = groupsOfLines (Str.split newline content))
    by (intros content; apply parseTerms_lines).
  split; [exact Hp|]. split; [|split].
  - intros content. split; [apply split_join|apply split_pieces_free].
  - intros fs termsFilepath. unfold readSearchTerms.
    destruct (readFile fs termsFilepath); [now rewrite Hp|reflexivity].
  - vm_compute. reflexivity.
Qed.

(** C7.  Every group the loader makes has at least one alternative, whatever
    the content of the terms file; so has every group [main] hands to the
    counter, which are the groups the loader returned. *)
Theorem loaded_groups_have_alternatives :
  (forall content : string,
      Forall (fun g : termGroup => snd g <> []) (parseTerms content))
  /\ (forall (fs : FileSystem) (termsFilepath : string),
         match readSearchTerms fs termsFilepath with
         | Some termGroups => Forall (fun g : termGroup => snd g <> []) termGroups
         | None => True
         end)
  /\ (forall (fs : FileSystem) (path : PathLib) (filepath termsFile : string),
         match readSearchTerms fs termsFile with
         | Some termGroups =>
             Forall (fun g : termGroup => snd g <> []) termGroups
             /\ (main fs path [filepath; termsFile] = Exit 1
                 \/ main fs path [filepath; termsFile]
                    = let fileResults :=
                        processFiles fs (getFilesToProcess fs path filepath) termGroups [] in
                      if (length fileResults =? 0)%nat then Completed None
                      else Completed (Some (writeResultsToCsv path fileResults termGroups)))
         | None => main fs path [filepath; termsFile] = Exit 1
         end).
Proof.
  assert (Hp : forall content, Forall (fun g : termGroup => snd g <> []) (parseTerms content)).
  { intros content. unfold parseTerms. rewrite parseTerms_lines.
    apply groupsOfLines_alternatives. }
  assert (Hr : forall fs termsFilepath,
             match readSearchTerms fs termsFilepath with
             | Some termGroups => Forall (fun g : termGroup => snd g <> []) termGroups
             | None => True
             end).
  { intros fs termsFilepath. unfold readSearchTerms.
    destruct (readFile fs termsFilepath); [apply Hp|exact I]. }
  split; [exact Hp|]. split; [exact Hr|].
  intros fs path filepath termsFile. specialize (Hr fs termsFile).
  unfold main. destruct (readSearchTerms fs termsFile) as [termGroups|]; [|reflexivity].
  split; [exact Hr|].
  destruct (length (getFilesToProcess fs path filepath) =? 0)%nat; [now left|].
  destruct (unhandledRejection fs path filepath); [now left|].
  cbv zeta.
  destruct (length (processFiles fs (getFilesToProcess fs path filepath) termGroups []) =? 0)%nat;
    [now right|].
  destruct (saveResults fs path _ termGroups); [now right|now left].
Qed.

(** C8, at a failing input.  Asked for the directory [docs], which holds the
    regular file [a.txt] and the subdirectory [sub], the enumerator answers
    both paths: the subdirectory is not left out. *)
Theorem enumerator_keeps_subdirectories :
  stat Fixture.fs "docs" = Ok Fixture.directory
  /\ readdir Fixture.fs "docs" = Ok ["sub"; "a.txt"]
  /\ stat Fixture.fs "docs/a.txt" = Ok Fixture.regular
  /\ stat Fixture.fs "docs/sub" = Ok Fixture.directory
  /\ getFilesToProcess Fixture.fs Fixture.path "docs" = ["docs/a.txt"; "docs/sub"].
Proof. repeat split. Qed.

(** C9, at a failing input.  The directory [docs] holds the readable file
    [a.txt], the subdirectory [sub] and the link [gone], whose target is
    missing.  The counter does signal absence for [gone] alone, returning no
    result for it and a result for [a.txt]; but [main] never gets to the
    table: the [fs.stat] started for [gone] by the filter callback of the
    enumerator rejects with no handler, which ends the run with exit code 1
    and nothing written.  Without that entry the same run writes the table
    with the row of [a.txt] and no row for [sub]. *)
Theorem dangling_entry_ends_the_run :
  getFilesToProcess danglingFs Fixture.path "docs"
  = ["docs/a.txt"; "docs/gone"; "docs/sub"]
  /\ stat danglingFs "docs/gone" = Err ENOENT
  /\ countOccurrences danglingFs "docs/gone" (parseTerms Fixture.terms) = None
  /\ countOccurrences danglingFs "docs/sub" (parseTerms Fixture.terms) = None
  /\ (exists results,
         countOccurrences danglingFs "docs/a.txt" (parseTerms Fixture.terms) = Some results
         /\ results !! "cat" = Some 2 /\ results !! "cat/cats" = Some 3)
  /\ readSearchTerms danglingFs "terms.txt" = Some (parseTerms Fixture.terms)
  /\ unhandledRejection danglingFs Fixture.path "docs" = true
  /\ main danglingFs Fixture.path ["docs"; "terms.txt"] = Exit 1
  /\ main Fixture.fs Fixture.path ["docs"; "terms.txt"]
     = Completed
         (Some [[Text "Filename"; Text "cat"; Text "cat/cats"];
                [Text "a.txt"; Value (JsObject.Num 2); Value (JsObject.Num 3)]]).
Proof.
  repeat split; try (vm_compute; reflexivity).
  eexists. split; [vm_compute; reflexivity|]. split; vm_compute; reflexivity.
Qed.

(** C10.  The counter gives the same result on a content and on its lowercased
    form, for every set of groups: it lowercases the content it has read
    before scanning, and lowercasing twice changes nothing. *)
Theorem counts_ignore_the_case_of_the_text :
  (forall (content : string) (termGroups : list termGroup),
      countIn (Str.toLowerCase content) termGroups = countIn content termGroups)
  /\ (forall (fs : FileSystem) (filepath : string) (termGroups : list termGroup),
         countOccurrences (mapContents Str.toLowerCase fs) filepath termGroups
         = countOccurrences fs filepath termGroups).
Proof.
  assert (H : forall content termGroups,
             countIn (Str.toLowerCase content) termGroups = countIn content termGroups).
  { intros content termGroups. unfold countIn. now rewrite toLowerCase_idempotent. }
  split; [exact H|].
  intros fs filepath termGroups. unfold countOccurrences, mapContents. cbn [readFile].
  destruct (readFile fs filepath); [apply H|reflexivity].
Qed.


(** * Further properties of the counter *)

Lemma set_is_Some (o : gmap string nat) (g k : string) (v : nat) :
  is_Some (JsObject.set o g v !! k)
  <-> is_Some (o !! k) \/ (k = g /\ k <> JsObject.protoKey).
Proof.
  unfold JsObject.set. destruct (String.eqb g JsObject.protoKey) eqn:E.
  - apply String.eqb_eq in E. subst g. split; [now left|].
    intros [H|[H1 H2]]; [exact H|contradiction].
  - apply String.eqb_neq in E. destruct (decide (g = k)) as [->|Hne].
    + rewrite lookup_insert_eq. split; [intros _; right; now split|eauto].
    + rewrite lookup_insert_ne by exact Hne. split; [now left|].
      intros [H|[H1 H2]]; [exact H|congruence].
Qed.

Lemma recordGroups_keys (text : string) (termGroups : list termGroup)
  (results : gmap string nat) (k : string) :
  is_Some (fold_left (recordGroup text) termGroups results !! k)
  <-> is_Some (results !! k)
      \/ (k <> JsObject.protoKey /\ In k (List.map fst termGroups)).
Proof.
  revert results. induction termGroups as [|[g t] rest IH]; intros results.
  - cbn. tauto.
  - cbn [fold_left List.map fst In]. rewrite IH. unfold recordGroup. cbn [fst snd].
    rewrite set_is_Some. intuition (subst; auto).
Qed.

(** X1.  For a file that can be read the counter always returns an object,
    whatever the groups and their terms; the properties of that object are
    the labels of the groups, the label [__proto__] left out, and nothing
    else. *)
Theorem readable_file_gets_one_count_per_label (fs : FileSystem) (filepath content : string)
  (termGroups : list termGroup) :
  readFile fs filepath = Ok content ->
  exists results,
    countOccurrences fs filepath termGroups = Some results
    /\ forall k, is_Some (results !! k)
                 <-> k <> JsObject.protoKey /\ In k (List.map fst termGroups).
Proof.
  intros Hread. rewrite countOccurrences_eq, Hread. eexists. split; [reflexivity|].
  intros k. rewrite recordGroups_keys, lookup_empty.
  split; [intros [[x Hx]|H]; [discriminate|exact H]|now right].
Qed.

Lemma readable_file_gets_one_count_per_label_witness :
  readFile Fixture.fs "docs/a.txt" = Ok Fixture.text
  /\ exists results,
      countOccurrences Fixture.fs "docs/a.txt" [("cat", ["cat"]); ("__proto__", ["sat"])]
      = Some results
      /\ forall k, is_Some (results !! k)
                   <-> k <> JsObject.protoKey
                       /\ In k (List.map fst [("cat", ["cat"]); ("__proto__", ["sat"])]).
Proof.
  split; [reflexivity|].
  apply (readable_file_gets_one_count_per_label Fixture.fs "docs/a.txt" Fixture.text).
  reflexivity.
Defined.

Lemma termPattern_toLowerCase (term : string) :
  termPattern (Str.toLowerCase term) = termPattern term.
Proof. unfold termPattern. now rewrite toLowerCase_idempotent. Qed.

Lemma termsLoop_toLowerCase (text : string) (terms : list string) (totalCount : nat) :
  termsLoop text (List.map Str.toLowerCase terms) totalCount
  = termsLoop text terms totalCount.
Proof.
  revert totalCount. induction terms as [|term rest IH]; intros totalCount; [reflexivity|].
  cbn [List.map termsLoop]. unfold countTerm. rewrite termPattern_toLowerCase.
  destruct (RegExp.compile (termPattern term)) as [pattern|]; [|reflexivity].
  cbn. apply IH.
Qed.

(** X2.  The case of the search terms does not matter: replacing every term
    of every group by its lowercased form leaves the result of the counter
    unchanged, for every content. *)
Theorem counts_ignore_the_case_of_the_terms (content : string) (termGroups : list termGroup) :
  countIn content
    (List.map (fun g : termGroup => (fst g, List.map Str.toLowerCase (snd g))) termGroups)
  = countIn content termGroups.
Proof.
  unfold countIn. generalize (∅ : gmap string nat) as results.
  induction termGroups as [|[g t] rest IH]; intros results; [reflexivity|].
  cbn [List.map groupsLoop fst snd]. rewrite termsLoop_toLowerCase.
  destruct (termsLoop (Str.toLowerCase content) t 0) as [totalCount|]; [|reflexivity].
  cbn. apply IH.
Qed.


Lemma length_map (f : ascii -> ascii) (s : string) :
  Text.length (Str.map f s) = Text.length s.
Proof. induction s as [|c r IH]; cbn; congruence. Qed.

Lemma length_list_ascii (s : string) :
  length (list_ascii_of_string s) = Text.length s.
Proof. induction s as [|c r IH]; cbn; congruence. Qed.

Lemma afterLiteral_length (lit : list ascii) (prev prev' : option ascii) (rest rest' : string) :
  afterLiteral lit prev rest = Some (prev', rest') ->
  Text.length rest = length lit + Text.length rest'.
Proof.
  revert prev rest. induction lit as [|c lit IH]; intros prev rest H.
  - cbn in H. now injection H as _ ->.
  - cbn [afterLiteral] in H. destruct rest as [|d r]; [discriminate|].
    destruct (Char.eqb d c); [|discriminate].
    apply IH in H. cbn. now rewrite H.
Qed.

Lemma spanLength_le (cls : list ascii) (s : string) : spanLength cls s <= Text.length s.
Proof.
  induction s as [|c r IH]; cbn; [lia|]. destruct (Char.mem c cls); lia.
Qed.

Lemma wholeWordAt_bounds (lit : list ascii) (prev : option ascii) (rest : string) (n : nat) :
  wholeWordAt lit prev rest = Some n -> length lit <= n <= Text.length rest.
Proof.
  unfold wholeWordAt. destruct (RegExp.atBoundary prev rest); [|discriminate].
  destruct (afterLiteral lit prev rest) as [[p' r']|] eqn:E; [|discriminate].
  destruct (RegExp.atBoundary p' r'); [|discriminate].
  intros [= <-]. apply afterLiteral_length in E.
  pose proof (spanLength_le punctuation r'). lia.
Qed.

Lemma countWholeWords_disjoint (lit : list ascii) (skip : nat) (prev : option ascii)
  (rest : string) :
  1 <= length lit -> skip <= Text.length rest ->
  countWholeWords lit skip prev rest * length lit + skip <= Text.length rest.
Proof.
  intros Hlit. revert skip prev.
  induction rest as [|c r IH]; intros skip prev Hskip; cbn [Text.length] in *.
  - destruct skip; [|lia]. cbn [countWholeWords].
    destruct (wholeWordAt lit prev "") as [n|] eqn:E; [|lia].
    apply wholeWordAt_bounds in E. cbn in E. lia.
  - destruct skip as [|k]; cbn [countWholeWords].
    + destruct (wholeWordAt lit prev (String c r)) as [n|] eqn:E.
      * apply wholeWordAt_bounds in E. cbn [Text.length] in E.
        specialize (IH (Nat.pred n) (Some c) ltac:(lia)). nia.
      * specialize (IH 0 (Some c) ltac:(lia)). lia.
    + specialize (IH k (Some c) ltac:(lia)). lia.
Qed.

Lemma countWholeWords_le (lit : list ascii) (skip : nat) (prev : option ascii) (rest : string) :
  countWholeWords lit skip prev rest <= S (Text.length rest).
Proof.
  revert skip prev. induction rest as [|c r IH]; intros skip prev.
  - destruct skip; cbn [countWholeWords Text.length]; [|lia].
    destruct (wholeWordAt lit prev ""); lia.
  - destruct skip as [|k]; cbn [countWholeWords Text.length].
    + destruct (wholeWordAt lit prev (String c r)) as [n|].
      * specialize (IH (Nat.pred n) (Some c)). lia.
      * specialize (IH 0 (Some c)). lia.
    + specialize (IH k (Some c)). lia.
Qed.

(** X3.  The occurrences counted for one term do not overlap: the count times
    the length of the term is at most the length of the text; and even for
    the empty term the count is at most the length of the text plus one. *)
Theorem occurrences_do_not_overlap (text term : string) :
  wholeWordCount text term * Text.length term <= Text.length text
  /\ wholeWordCount text term <= S (Text.length text).
Proof.
  unfold wholeWordCount. split; [|apply countWholeWords_le].
  pose proof (length_list_ascii (Str.toLowerCase term)) as Hl.
  unfold Str.toLowerCase in Hl at 2. rewrite length_map in Hl.
  destruct (Text.length term) as [|n] eqn:E; [lia|].
  pose proof (countWholeWords_disjoint (list_ascii_of_string (Str.toLowerCase term))
                0 None text ltac:(lia) ltac:(lia)) as H.
  rewrite Hl in H. lia.
Qed.

Lemma afterLiteral_prefix (s : string) (prev prev' : option ascii) (rest rest' : string) :
  afterLiteral (list_ascii_of_string s) prev rest = Some (prev', rest') ->
  rest = s +^ rest'.
Proof.
  revert prev rest. induction s as [|c s IH]; intros prev rest H.
  - cbn in H. now injection H as _ ->.
  - cbn [list_ascii_of_string afterLiteral] in H. destruct rest as [|d r]; [discriminate|].
    destruct (Char.eqb d c) eqn:E; [|discriminate].
    apply char_eqb_eq in E. subst d. apply IH in H. cbn. now rewrite <- H.
Qed.

Lemma take_append (s rest : string) (n : nat) :
  RegExp.take (Text.length s + n) (s +^ rest) = s +^ RegExp.take n rest.
Proof. induction s as [|c s IH]; cbn; [reflexivity|now rewrite IH]. Qed.

Lemma take_span (cls : list ascii) (s : string) :
  Text.allIn cls (RegExp.take (spanLength cls s) s) = true.
Proof.
  induction s as [|c r IH]; [reflexivity|].
  cbn [spanLength]. destruct (Char.mem c cls) eqn:E; [|reflexivity].
  cbn. now rewrite E, IH.
Qed.

Lemma wholeWordAt_match (s : string) (prev : option ascii) (rest : string) (n : nat) :
  wholeWordAt (list_ascii_of_string s) prev rest = Some n ->
  exists tail, RegExp.take n rest = s +^ tail /\ Text.allIn punctuation tail = true.
Proof.
  unfold wholeWordAt. destruct (RegExp.atBoundary prev rest); [|discriminate].
  destruct (afterLiteral _ prev rest) as [[p' r']|] eqn:E; [|discriminate].
  destruct (RegExp.atBoundary p' r'); [|discriminate].
  intros [= <-]. apply afterLiteral_prefix in E. subst rest.
  rewrite length_list_ascii, take_append.
  eexists. split; [reflexivity|apply take_span].
Qed.

Lemma scan_matches (term : string) (skip : nat) (prev : option ascii) (rest : string) :
  Forall (fun m => exists tail,
              m = Str.toLowerCase term +^ tail /\ Text.allIn punctuation tail = true)
    (RegExp.scan (termAtoms term) skip prev rest).
Proof.
  revert skip prev. induction rest as [|c r IH]; intros skip prev.
  - destruct skip; cbn [RegExp.scan]; [|constructor].
    rewrite matchAtoms_termAtoms.
    destruct (wholeWordAt _ prev "") as [n|] eqn:E; [|constructor].
    constructor; [|constructor]. now apply wholeWordAt_match in E.
  - destruct skip; cbn [RegExp.scan]; [|apply IH].
    rewrite matchAtoms_termAtoms.
    destruct (wholeWordAt _ prev (String c r)) as [n|] eqn:E; [|apply IH].
    constructor; [|apply IH]. now apply wholeWordAt_match in E.
Qed.

(** X4.  Every match the scan of a term returns is the lowercased term
    followed by closing punctuation only (possibly none); the count of the
    term is the number of these matches. *)
Theorem every_match_is_the_term_and_punctuation (text term : string) :
  Forall (fun m => exists tail,
              m = Str.toLowerCase term +^ tail /\ Text.allIn punctuation tail = true)
    (RegExp.scan (termAtoms term) 0 None text)
  /\ countTerm text term = Some (length (RegExp.scan (termAtoms term) 0 None text)).
Proof.
  split; [apply scan_matches|].
  rewrite countTerm_eq. unfold wholeWordCount. now rewrite scan_termAtoms.
Qed.

Lemma recordGroups_constant (text : string) (termGroups : list termGroup)
  (results : gmap string nat) (k : string) (v : nat) :
  Forall (fun g : termGroup => groupCount text (snd g) = v) termGroups ->
  k <> JsObject.protoKey -> In k (List.map fst termGroups) ->
  fold_left (recordGroup text) termGroups results !! k = Some v.
Proof.
  intros Hall Hk. revert results.
  induction Hall as [|[g t] rest Hg Hrest IH]; intros results Hin; [contradiction|].
  cbn [fold_left List.map fst In] in *.
  destruct (in_dec string_dec k (List.map fst rest)) as [Hr|Hr]; [now apply IH|].
  destruct Hin as [->|Hin]; [|contradiction].
  assert (Hnone : forall r0, fold_left (recordGroup text) rest r0 !! k = r0 !! k).
  { clear -Hr. induction rest as [|[g' t'] rest IH]; intros r0; [reflexivity|].
    cbn [fold_left]. rewrite IH by (intros H; apply Hr; now right).
    unfold recordGroup. cbn [fst snd]. apply set_lookup_ne.
    intros ->. apply Hr. now left. }
  rewrite Hnone. unfold recordGroup. cbn [fst snd] in *. rewrite Hg.
  now apply set_lookup_eq.
Qed.

Lemma groupCount_empty_text (terms : list string) : groupCount "" terms = 0.
Proof.
  unfold groupCount. induction terms as [|t r IH]; [reflexivity|].
  cbn [List.map sum_list foldr] in *. now rewrite IH.
Qed.

(** X5.  On an empty file every group gets count 0, whatever its terms, the
    empty term included. *)
Theorem empty_file_counts_zero (termGroups : list termGroup) (k : string) :
  k <> JsObject.protoKey -> In k (List.map fst termGroups) ->
  exists results, countIn "" termGroups = Some results /\ results !! k = Some 0.
Proof.
  intros Hk Hin. eexists. split; [apply countIn_eq|].
  apply recordGroups_constant; [|exact Hk|exact Hin].
  apply List.Forall_forall. intros g _. apply groupCount_empty_text.
Qed.

Lemma empty_file_counts_zero_witness :
  "a//b" <> JsObject.protoKey
  /\ In "a//b" (List.map fst [("a//b", ["a"; ""; "b"])])
  /\ exists results,
      countIn "" [("a//b", ["a"; ""; "b"])] = Some results /\ results !! "a//b" = Some 0.
Proof.
  split; [discriminate|]. split; [now left|].
  apply (empty_file_counts_zero [("a//b", ["a"; ""; "b"])] "a//b").
  - discriminate.
  - now left.
Defined.

(** * Further properties of the loader *)

Lemma trimStart_fixed (s : string) :
  notWhiteSpace (Str.head s) -> Str.trimStart s = s.
Proof. destruct s as [|c r]; [reflexivity|]. cbn. now intros ->. Qed.

Lemma trimEnd_cons (c : ascii) (r : string) :
  Str.trimEnd (String c r)
  = if Char.isWhiteSpace c && Str.isEmpty (Str.trimEnd r) then EmptyString
    else String c (Str.trimEnd r).
Proof. reflexivity. Qed.

Lemma trimEnd_fixed (s : string) :
  notWhiteSpace (Str.last s) -> Str.trimEnd s = s.
Proof.
  induction s as [|c r IH]; [reflexivity|].
  destruct r as [|d r'].
  - cbn. now intros ->.
  - intros H. rewrite trimEnd_cons, IH by exact H.
    cbn [Str.isEmpty]. now rewrite andb_false_r.
Qed.

Lemma trim_idempotent (s : string) : Str.trim (Str.trim s) = Str.trim s.
Proof.
  destruct (trim_spec s) as (a & b & _ & _ & _ & Hh & Hl).
  unfold Str.trim at 1. rewrite trimStart_fixed by exact Hh.
  now apply trimEnd_fixed.
Qed.

Lemma contains_append (c : ascii) (a b : string) :
  Str.contains c (a +^ b) = Str.contains c a || Str.contains c b.
Proof.
  induction a as [|d a IH]; [reflexivity|]. cbn. rewrite IH. now rewrite orb_assoc.
Qed.

Lemma trim_contains (c : ascii) (s : string) :
  Str.contains c s = false -> Str.contains c (Str.trim s) = false.
Proof.
  destruct (trim_spec s) as (a & b & Hs & _). intros H.
  rewrite Hs in H. rewrite !contains_append in H.
  apply orb_false_iff in H as [_ H]. now apply orb_false_iff in H as [H _].
Qed.

Lemma split_free (sep : ascii) (s : string) :
  Str.contains sep s = false -> Str.split sep s = [s].
Proof.
  induction s as [|c r IH]; [reflexivity|].
  cbn [Str.contains]. intros H. apply orb_false_iff in H as [Hc Hr].
  rewrite split_cons, Hc, (IH Hr). reflexivity.
Qed.

Lemma split_append_sep (sep : ascii) (a b : string) :
  Str.contains sep a = false ->
  Str.split sep (a +^ String sep b) = a :: Str.split sep b.
Proof.
  induction a as [|c r IH]; intros H.
  - cbn [Str.append]. now rewrite split_cons, char_eqb_refl.
  - cbn [Str.contains] in H. apply orb_false_iff in H as [Hc Hr].
    cbn [Str.append]. rewrite split_cons, Hc, (IH Hr). reflexivity.
Qed.

Lemma split_join_inverse (sep : ascii) (l : list string) :
  Forall (fun piece => Str.contains sep piece = false) l -> l <> [] ->
  Str.split sep (Str.join sep l) = l.
Proof.
  induction 1 as [|s l Hs Hl IH]; intros Hne; [contradiction|].
  destruct l as [|t l'].
  - cbn. now apply split_free.
  - rewrite join_cons, split_append_sep by exact Hs.
    now rewrite IH.
Qed.

Lemma trimStart_allWhiteSpace (s : string) :
  allWhiteSpace s = true -> Str.trimStart s = "".
Proof.
  induction s as [|c r IH]; [reflexivity|].
  cbn. intros H. apply andb_true_iff in H as [Hc Hr]. now rewrite Hc, IH.
Qed.

Lemma trimEnd_allWhiteSpace (s : string) :
  allWhiteSpace s = true -> Str.trimEnd s = "".
Proof.
  induction s as [|c r IH]; [reflexivity|].
  cbn. intros H. apply andb_true_iff in H as [Hc Hr]. now rewrite Hc, IH.
Qed.

Lemma trimStart_prefix (a s : string) :
  allWhiteSpace a = true -> Str.trimStart (a +^ s) = Str.trimStart s.
Proof.
  induction a as [|c r IH]; [reflexivity|].
  cbn. intros H. apply andb_true_iff in H as [Hc Hr]. now rewrite Hc, IH.
Qed.

Lemma trimEnd_suffix (s b : string) :
  allWhiteSpace b = true -> Str.trimEnd (s +^ b) = Str.trimEnd s.
Proof.
  intros Hb. induction s as [|c r IH].
  - cbn. now apply trimEnd_allWhiteSpace.
  - cbn [Str.append Str.trimEnd]. now rewrite IH.
Qed.

Lemma trimStart_append (s b : string) :
  Str.trimStart (s +^ b)
  = match Str.trimStart s with
    | EmptyString => Str.trimStart b
    | String c t => String c t +^ b
    end.
Proof.
  induction s as [|c r IH]; [reflexivity|].
  cbn [Str.append Str.trimStart]. now destruct (Char.isWhiteSpace c).
Qed.

(** White space around a string does not change what [trim] gives. *)
Lemma trim_padded (a s b : string) :
  allWhiteSpace a = true -> allWhiteSpace b = true ->
  Str.trim (a +^ s +^ b) = Str.trim s.
Proof.
  intros Ha Hb. unfold Str.trim. rewrite trimStart_prefix by exact Ha.
  rewrite trimStart_append. destruct (Str.trimStart s) as [|c t].
  - now rewrite trimStart_allWhiteSpace.
  - now apply trimEnd_suffix.
Qed.

Lemma groupsOfLines_labels (lines : list string) :
  groupsOfLines lines = List.map groupOfLabel (labelsOfLines lines).
Proof. symmetry. apply parseTerms_lines. Qed.

Lemma labels_of_groups (labels : list string) :
  List.map fst (List.map groupOfLabel labels) = labels.
Proof. induction labels as [|l r IH]; cbn; congruence. Qed.

Lemma labelsOfLines_hygiene (lines : list string) :
  Forall (fun line => Str.contains newline line = false) lines ->
  Forall (fun label => label <> "" /\ Str.trim label = label
                       /\ Str.contains newline label = false)
    (labelsOfLines lines).
Proof.
  unfold labelsOfLines. induction 1 as [|line rest Hline Hrest IH]; [constructor|].
  cbn [List.map List.filter].
  destruct (Str.trim line) as [|c t] eqn:E; cbn [Str.isEmpty negb]; [exact IH|].
  constructor; [|exact IH]. rewrite <- E. repeat split.
  - rewrite E. discriminate.
  - apply trim_idempotent.
  - now apply trim_contains.
Qed.

Lemma labelsOfLines_fixed (labels : list string) :
  Forall (fun label => label <> "" /\ Str.trim label = label) labels ->
  labelsOfLines labels = labels.
Proof.
  unfold labelsOfLines. induction 1 as [|l r [Hne Ht] Hr IH]; [reflexivity|].
  cbn [List.map List.filter]. rewrite Ht.
  destruct l; [contradiction|]. cbn [Str.isEmpty negb]. now rewrite IH.
Qed.

(** X6.  Every label the loader makes is not empty, has no white space at
    either end and holds no newline; every alternative has no white space at
    either end and holds neither a slash nor a newline; and the alternatives
    of a group are those read off its label. *)
Theorem loaded_groups_are_clean (content : string) :
  Forall
    (fun g : termGroup =>
       fst g <> "" /\ Str.trim (fst g) = fst g
       /\ Str.contains newline (fst g) = false
       /\ snd g = List.map Str.trim (Str.split slash (fst g))
       /\ Forall (fun alt => Str.trim alt = alt
                             /\ Str.contains slash alt = false
                             /\ Str.contains newline alt = false) (snd g))
    (parseTerms content).
Proof.
  unfold parseTerms. rewrite parseTerms_lines, groupsOfLines_labels.
  pose proof (labelsOfLines_hygiene _ (split_pieces_free newline content)) as H.
  induction H as [|label rest (Hne & Ht & Hn) Hrest IH]; [constructor|].
  cbn [List.map]. constructor; [|exact IH]. cbn [groupOfLabel fst snd].
  repeat split; try assumption.
  pose proof (split_pieces_free slash label) as Hs.
  pose proof (split_join slash label) as Hj.
  assert (Hnl : Forall (fun piece => Str.contains newline piece = false)
                  (Str.split slash label)).
  { clear Hs. revert Hj Hn. generalize (Str.split slash label) as l. clear.
    intros l. revert label. induction l as [|p l IH]; intros label Hj Hn; [constructor|].
    destruct l as [|q l'].
    - cbn in Hj. subst p. now repeat constructor.
    - rewrite join_cons in Hj. subst label. rewrite contains_append in Hn.
      apply orb_false_iff in Hn as [Hp Hq]. constructor; [exact Hp|].
      cbn [Str.contains] in Hq. apply orb_false_iff in Hq as [_ Hq].
      now apply (IH _ eq_refl). }
  clear Hj. induction Hs as [|p l Hp Hl IHl]; [constructor|].
  inversion Hnl as [|? ? Hpn Hln]; subst.
  cbn [List.map]. constructor; [|now apply IHl].
  repeat split; [apply trim_idempotent|now apply trim_contains|now apply trim_contains].
Qed.

(** X7.  Writing the labels of the loaded groups one per line and loading
    that again gives the same groups: the labels carry all that the loader
    keeps of a terms file. *)
Theorem loading_the_labels_again (content : string) :
  parseTerms (Str.join newline (List.map fst (parseTerms content))) = parseTerms content.
Proof.
  pose proof (labelsOfLines_hygiene _ (split_pieces_free newline content)) as H.
  assert (Hp : forall c, parseTerms c = List.map groupOfLabel (labelsOfLines (Str.split newline c))).
  { intros c. unfold parseTerms. now rewrite parseTerms_lines, groupsOfLines_labels. }
  rewrite (Hp content), labels_of_groups.
  set (labels := labelsOfLines (Str.split newline content)) in *.
  rewrite Hp. f_equal. destruct labels as [|l r] eqn:E; [reflexivity|].
  rewrite <- E in *. rewrite split_join_inverse.
  - apply labelsOfLines_fixed. eapply List.Forall_impl; [|exact H]. cbn. tauto.
  - eapply List.Forall_impl; [|exact H]. cbn. tauto.
  - rewrite E. discriminate.
Qed.

Lemma labelsOfLines_padded (a b : string) (lines : list string) :
  allWhiteSpace a = true -> allWhiteSpace b = true ->
  labelsOfLines (List.map (fun line => a +^ line +^ b) lines) = labelsOfLines lines.
Proof.
  intros Ha Hb. unfold labelsOfLines. f_equal.
  induction lines as [|l r IH]; [reflexivity|].
  cbn [List.map]. now rewrite trim_padded, IH.
Qed.

(** X8.  White space at the ends of the lines of a terms file does not
    matter: putting the same run of white space (a carriage return, say)
    before and after every line gives the same groups. *)
Theorem padding_the_lines_changes_nothing (a b : string) (lines : list string) :
  allWhiteSpace a = true -> allWhiteSpace b = true ->
  Str.contains newline a = false -> Str.contains newline b = false ->
  Forall (fun line => Str.contains newline line = false) lines ->
  parseTerms (Str.join newline (List.map (fun line => a +^ line +^ b) lines))
  = parseTerms (Str.join newline lines).
Proof.
  intros Ha Hb Hna Hnb Hlines.
  assert (Hp : forall c, parseTerms c = List.map groupOfLabel (labelsOfLines (Str.split newline c))).
  { intros c. unfold parseTerms. now rewrite parseTerms_lines, groupsOfLines_labels. }
  rewrite !Hp. f_equal. destruct lines as [|l r]; [reflexivity|].
  rewrite !split_join_inverse; try discriminate; try exact Hlines.
  - now apply labelsOfLines_padded.
  - apply List.Forall_forall. intros x Hx. apply in_map_iff in Hx as (line & <- & Hin).
    rewrite !contains_append, Hna, Hnb.
    rewrite List.Forall_forall in Hlines. now rewrite (Hlines line Hin).
Qed.

Lemma padding_the_lines_changes_nothing_witness :
  parseTerms (Str.join newline
                (List.map (fun line => "  " +^ line +^ String "013"%char "")
                   ["cat / cats"; ""; "dog"]))
  = parseTerms (Str.join newline ["cat / cats"; ""; "dog"]).
Proof.
  apply (padding_the_lines_changes_nothing "  " (String "013"%char "")
           ["cat / cats"; ""; "dog"]); try reflexivity.
  repeat constructor.
Defined.

Lemma split_allWhiteSpace (sep : ascii) (s : string) :
  allWhiteSpace s = true -> Forall (fun piece => allWhiteSpace piece = true) (Str.split sep s).
Proof.
  induction s as [|c r IH]; [repeat constructor|].
  cbn [allWhiteSpace]. intros H. apply andb_true_iff in H as [Hc Hr].
  specialize (IH Hr). rewrite split_cons.
  pose proof (split_nonempty sep r) as Hne.
  destruct (Str.split sep r) as [|piece pieces]; [contradiction|].
  destruct (Char.eqb c sep).
  - constructor; [reflexivity|exact IH].
  - inversion IH; subst. constructor; [|assumption]. cbn. now rewrite Hc.
Qed.

(** X9.  A terms file holding white space only (the empty file included)
    gives no group at all; it is loaded all the same, as an empty list. *)
Theorem blank_terms_file_gives_no_group (fs : FileSystem) (termsFilepath content : string) :
  readFile fs termsFilepath = Ok content ->
  allWhiteSpace content = true ->
  readSearchTerms fs termsFilepath = Some [].
Proof.
  intros Hread Hws. unfold readSearchTerms. rewrite Hread. f_equal.
  unfold parseTerms. rewrite parseTerms_lines.
  pose proof (split_allWhiteSpace newline content Hws) as H.
  induction H as [|line rest Hline Hrest IH]; [reflexivity|].
  cbn [groupsOfLines]. unfold Str.trim.
  now rewrite trimStart_allWhiteSpace.
Qed.


Lemma blank_terms_file_gives_no_group_witness :
  readSearchTerms (mapContents (fun _ => String newline "  ") Fixture.fs) "terms.txt"
  = Some [].
Proof.
  apply (blank_terms_file_gives_no_group
           (mapContents (fun _ => String newline "  ") Fixture.fs)
           "terms.txt" (String newline "  ")); reflexivity.
Defined.

(** * Further properties of the enumerator, the driver and the table *)

(** X10.  For a directory that can be listed, the enumerator returns the
    joined paths of all its entries, each once for each time it is listed, in
    ascending order of their code units. *)
Theorem directory_entries_come_back_sorted (fs : FileSystem) (path : PathLib)
  (inputPath : string) (stats : Stats) (files : list string) :
  stat fs inputPath = Ok stats -> isFile stats = false -> isDirectory stats = true ->
  readdir fs inputPath = Ok files ->
  Permutation (getFilesToProcess fs path inputPath) (List.map (join path inputPath) files)
  /\ Sorted (fun a b => Sort.leb a b = true) (getFilesToProcess fs path inputPath).
Proof.
  intros Hs Hf Hd Hr.
  rewrite (getFilesToProcess_directory fs path inputPath stats files Hs Hf Hd Hr).
  split; [apply sort_perm|apply sort_sorted].
Qed.

Lemma directory_entries_come_back_sorted_witness :
  Permutation (getFilesToProcess Fixture.fs Fixture.path "docs")
    (List.map (join Fixture.path "docs") ["sub"; "a.txt"])
  /\ Sorted (fun a b => Sort.leb a b = true) (getFilesToProcess Fixture.fs Fixture.path "docs").
Proof.
  apply (directory_entries_come_back_sorted Fixture.fs Fixture.path "docs"
           Fixture.directory ["sub"; "a.txt"]); reflexivity.
Defined.

Lemma readSearchTerms_readable (fs : FileSystem) (termsFile : string) :
  readSearchTerms fs termsFile = None <-> readable fs termsFile = false.
Proof.
  unfold readSearchTerms, readable. destruct (readFile fs termsFile); split; congruence.
Qed.

Lemma length_zero_nil {A : Type} (l : list A) : (length l =? 0)%nat = true <-> l = [].
Proof. destruct l; cbn; split; congruence. Qed.

Lemma processFiles_nil (fs : FileSystem) (files : list string) (termGroups : list termGroup) :
  processFiles fs files termGroups [] = [] <-> List.filter (readable fs) files = [].
Proof.
  pose proof (processFiles_readable fs files termGroups) as HF.
  split; intros H; rewrite H in HF; now inversion HF.
Qed.

Lemma saveResults_isErr (fs : FileSystem) (path : PathLib)
  (fileResults : list (string * gmap string nat)) (termGroups : list termGroup) :
  isErr (saveResults fs path fileResults termGroups)
  = isErr (ensureDir fs "data")
    || isErr (writeFile fs (searchResultsFile path (now fs))
                (stringify path (writeResultsToCsv path fileResults termGroups))).
Proof.
  unfold saveResults. destruct (ensureDir fs "data"); [|reflexivity].
  now destruct (writeFile fs _ _).
Qed.

(** X11.  [main] ends with exit code 1 in exactly these cases: it was not
    given two arguments; the terms file cannot be read; the enumerator found
    no file; the [fs.stat] started for an entry of the listed directory
    rejects, which nothing handles; or some file was read and the table could
    not be saved, [ensureDir] or [writeFile] rejecting.  It never ends with
    another exit code. *)
Theorem main_exits_with_code_one_exactly_when (fs : FileSystem) (path : PathLib)
  (args : list string) :
  (main fs path args = Exit 1
   <-> length args <> 2
       \/ exists filepath termsFile,
           args = [filepath; termsFile]
           /\ (readable fs termsFile = false
               \/ getFilesToProcess fs path filepath = []
               \/ unhandledRejection fs path filepath = true
               \/ exists termGroups,
                   readSearchTerms fs termsFile = Some termGroups
                   /\ List.filter (readable fs) (getFilesToProcess fs path filepath) <> []
                   /\ (isErr (ensureDir fs "data") = true
                       \/ isErr (writeFile fs (searchResultsFile path (now fs))
                                   (stringify path
                                      (writeResultsToCsv path
                                         (processFiles fs (getFilesToProcess fs path filepath)
                                            termGroups [])
                                         termGroups))) = true)))
  /\ (forall code, main fs path args = Exit code -> code = 1).
Proof.
  destruct args as [|filepath [|termsFile [|x rest]]];
    try (split; [split; [intros _; left; cbn; lia|reflexivity]|cbn; congruence]).
  unfold main.
  destruct (readSearchTerms fs termsFile) as [termGroups|] eqn:Et.
  2:{ split; [|congruence]. split; [intros _|reflexivity].
      right. exists filepath, termsFile. split; [reflexivity|left].
      now apply readSearchTerms_readable. }
  assert (Hr : readable fs termsFile = true).
  { destruct (readable fs termsFile) eqn:E; [reflexivity|].
    apply readSearchTerms_readable in E. congruence. }
  destruct (length (getFilesToProcess fs path filepath) =? 0)%nat eqn:El.
  { apply length_zero_nil in El. split; [|congruence].
    split; [intros _|reflexivity]. right. exists filepath, termsFile. auto. }
  assert (Hne : getFilesToProcess fs path filepath <> []).
  { intros H. apply length_zero_nil in H. congruence. }
  destruct (unhandledRejection fs path filepath) eqn:Eu.
  { split; [|congruence]. split; [intros _|reflexivity].
    right. exists filepath, termsFile. auto. }
  cbv zeta.
  set (fileResults := processFiles fs (getFilesToProcess fs path filepath) termGroups []).
  destruct (length fileResults =? 0)%nat eqn:Ef.
  { apply length_zero_nil in Ef. split; [|discriminate]. split; [discriminate|].
    intros [H|(f & t & [= <- <-] & [H|[H|[H|(tg & _ & Hgood & _)]]])];
      [cbn in H; lia|congruence|contradiction|congruence|].
    apply processFiles_nil in Ef. contradiction. }
  assert (Hgood : List.filter (readable fs) (getFilesToProcess fs path filepath) <> []).
  { intros H. apply (processFiles_nil fs _ termGroups) in H.
    fold fileResults in H. apply length_zero_nil in H. congruence. }
  pose proof (saveResults_isErr fs path fileResults termGroups) as Hs.
  destruct (saveResults fs path fileResults termGroups) as [outputFile|e]; cbn [isErr] in Hs.
  - split; [|discriminate]. split; [discriminate|].
    symmetry in Hs. apply orb_false_iff in Hs as [Hs1 Hs2].
    intros [H|(f & t & [= <- <-] & [H|[H|[H|(tg & Htg & _ & [H|H])]]])];
      [cbn in H; lia|congruence|contradiction|congruence|congruence|].
    assert (tg = termGroups) by congruence. subst tg. fold fileResults in H. congruence.
  - split; [|congruence]. split; [intros _|reflexivity].
    right. exists filepath, termsFile. split; [reflexivity|]. do 3 right.
    exists termGroups. split; [exact Et|]. split; [exact Hgood|].
    symmetry in Hs. now apply orb_true_iff in Hs.
Qed.

Lemma processFiles_none_readable (fs : FileSystem) (files : list string)
  (termGroups : list termGroup) :
  List.filter (readable fs) files = [] -> processFiles fs files termGroups [] = [].
Proof. apply processFiles_nil. Qed.

(** X12.  When the terms were loaded, files were found and every [fs.stat]
    started for them answered, but none of the files can be read, [main]
    writes no table and still runs to its end, without an exit code of
    failure. *)
Theorem nothing_is_written_when_no_file_is_read (fs : FileSystem) (path : PathLib)
  (filepath termsFile : string) :
  readable fs termsFile = true ->
  getFilesToProcess fs path filepath <> [] ->
  unhandledRejection fs path filepath = false ->
  List.filter (readable fs) (getFilesToProcess fs path filepath) = [] ->
  main fs path [filepath; termsFile] = Completed None.
Proof.
  intros Ht Hfiles Hu Hnone. unfold main.
  destruct (readSearchTerms fs termsFile) as [termGroups|] eqn:Et.
  - destruct (length (getFilesToProcess fs path filepath) =? 0)%nat eqn:El.
    + apply length_zero_nil in El. contradiction.
    + now rewrite Hu, (processFiles_none_readable _ _ _ Hnone).
  - apply readSearchTerms_readable in Et. congruence.
Qed.

Lemma nothing_is_written_when_no_file_is_read_witness :
  main lockedFs Fixture.path ["docs"; "terms.txt"] = Completed None.
Proof.
  apply (nothing_is_written_when_no_file_is_read lockedFs Fixture.path "docs" "terms.txt").
  - reflexivity.
  - vm_compute. discriminate.
  - reflexivity.
  - reflexivity.
Defined.

(** X23.  When reading a file fails the counter returns no result for it;
    when the terms were loaded, every [fs.stat] started for the entries of a
    listed directory answered, at least one enumerated file can be read and
    the table can be saved, [main] runs to the end and writes a table made of
    the header and, in order, one row for each file that could be read, built
    from the counts of that file, and no row for the others. *)
Theorem unreadable_files_are_left_out (fs : FileSystem) (path : PathLib)
  (filepath termsFile : string) (termGroups : list termGroup) :
  readSearchTerms fs termsFile = Some termGroups ->
  List.filter (readable fs) (getFilesToProcess fs path filepath) <> [] ->
  unhandledRejection fs path filepath = false ->
  isErr (ensureDir fs "data") = false ->
  (forall csvContent,
      isErr (writeFile fs (searchResultsFile path (now fs)) csvContent) = false) ->
  (forall p, readable fs p = false -> countOccurrences fs p termGroups = None)
  /\ exists rows,
      main fs path [filepath; termsFile]
      = Completed (Some (csvHeader termGroups :: rows))
      /\ Forall2
           (fun p row =>
              exists results,
                countOccurrences fs p termGroups = Some results
                /\ row = csvRow path termGroups (p, results))
           (List.filter (readable fs) (getFilesToProcess fs path filepath)) rows.
Proof.
  intros Hterms Hgood Hu Hdir Hwrite. split; [intros p; apply countOccurrences_unreadable|].
  unfold main. rewrite Hterms, Hu.
  pose proof (processFiles_readable fs (getFilesToProcess fs path filepath) termGroups) as HF.
  destruct (getFilesToProcess fs path filepath) as [|f files] eqn:Ef; [now contradiction Hgood|].
  cbn [length Nat.eqb]. cbv zeta.
  set (good := List.filter (readable fs) (f :: files)) in *.
  set (fileResults := processFiles fs (f :: files) termGroups []) in *.
  pose proof (saveResults_isErr fs path fileResults termGroups) as Hs.
  rewrite Hdir, Hwrite in Hs.
  exists (List.map (csvRow path termGroups) fileResults). split.
  - destruct HF as [|p fr ps frs Hhd Htl]; [now contradiction Hgood|].
    cbn [length Nat.eqb].
    destruct (saveResults fs path (fr :: frs) termGroups); [reflexivity|discriminate].
  - clearbody good fileResults. clear Hgood Ef Hs.
    induction HF as [|p [p' results] ps frs [Hp Hc] Htl IH]; [constructor|].
    cbn [fst snd] in *. subst p'. cbn [List.map]. constructor; [|exact IH].
    exists results. now split.
Qed.

Lemma unreadable_files_are_left_out_witness :
  readSearchTerms Fixture.fs "terms.txt" = Some (parseTerms Fixture.terms)
  /\ List.filter (readable Fixture.fs) (getFilesToProcess Fixture.fs Fixture.path "docs") <> []
  /\ unhandledRejection Fixture.fs Fixture.path "docs" = false
  /\ ((forall p, readable Fixture.fs p = false ->
                 countOccurrences Fixture.fs p (parseTerms Fixture.terms) = None)
      /\ exists rows,
          main Fixture.fs Fixture.path ["docs"; "terms.txt"]
          = Completed (Some (csvHeader (parseTerms Fixture.terms) :: rows))
          /\ Forall2
               (fun p row =>
                  exists results,
                    countOccurrences Fixture.fs p (parseTerms Fixture.terms) = Some results
                    /\ row = csvRow Fixture.path (parseTerms Fixture.terms) (p, results))
               (List.filter (readable Fixture.fs)
                  (getFilesToProcess Fixture.fs Fixture.path "docs")) rows).
Proof.
  split; [reflexivity|]. split; [vm_compute; discriminate|]. split; [reflexivity|].
  apply (unreadable_files_are_left_out Fixture.fs Fixture.path "docs" "terms.txt").
  - reflexivity.
  - vm_compute. discriminate.
  - reflexivity.
  - reflexivity.
  - reflexivity.
Defined.

(** X13.  A table [main] writes is rectangular: its first row is [Filename]
    followed by the labels of the groups in the order of the terms file,
    every row has one cell more than there are groups, and there is one row
    more than there are enumerated files that can be read. *)
Theorem written_table_is_rectangular (fs : FileSystem) (path : PathLib)
  (args : list string) (table : list (list cell)) :
  main fs path args = Completed (Some table) ->
  exists filepath termsFile termGroups rows,
    args = [filepath; termsFile]
    /\ readSearchTerms fs termsFile = Some termGroups
    /\ table = (Text "Filename" :: List.map (fun g => Text (fst g)) termGroups) :: rows
    /\ Forall (fun row => length row = S (length termGroups)) table
    /\ length rows
       = length (List.filter (readable fs) (getFilesToProcess fs path filepath)).
Proof.
  destruct args as [|filepath [|termsFile [|x rest]]]; try discriminate.
  unfold main. destruct (readSearchTerms fs termsFile) as [termGroups|] eqn:Et; [|discriminate].
  destruct (length (getFilesToProcess fs path filepath) =? 0)%nat; [discriminate|].
  destruct (unhandledRejection fs path filepath); [discriminate|]. cbv zeta.
  destruct (length (processFiles _ _ _ _) =? 0)%nat; [discriminate|].
  destruct (saveResults fs path _ termGroups); [|discriminate].
  intros [= <-]. exists filepath, termsFile, termGroups. eexists.
  split; [reflexivity|]. split; [exact Et|]. split; [reflexivity|].
  pose proof (processFiles_readable fs (getFilesToProcess fs path filepath) termGroups) as HF.
  split.
  - unfold writeResultsToCsv. constructor.
    + cbn. now rewrite List.length_map.
    + apply List.Forall_forall. intros row Hrow.
      apply in_map_iff in Hrow as (fr & <- & _). cbn. now rewrite List.length_map.
  - rewrite List.length_map. symmetry. clear -HF.
    induction HF; cbn; congruence.
Qed.

Lemma written_table_is_rectangular_witness :
  exists table,
    main Fixture.fs Fixture.path ["docs"; "terms.txt"] = Completed (Some table)
    /\ exists filepath termsFile termGroups rows,
        ["docs"; "terms.txt"] = [filepath; termsFile]
        /\ readSearchTerms Fixture.fs termsFile = Some termGroups
        /\ table = (Text "Filename" :: List.map (fun g => Text (fst g)) termGroups) :: rows
        /\ Forall (fun row => length row = S (length termGroups)) table
        /\ length rows
           = length (List.filter (readable Fixture.fs)
                       (getFilesToProcess Fixture.fs Fixture.path filepath)).
Proof.
  eexists. split; [vm_compute; reflexivity|].
  apply (written_table_is_rectangular Fixture.fs Fixture.path ["docs"; "terms.txt"]).
  vm_compute. reflexivity.
Defined.

(** X14.  In the row of a file that was read, the cell under every label is a
    number, except under the label [__proto__], where it is the object every
    plain object inherits from and not a count. *)
Theorem cells_are_numbers_except_under_proto (fs : FileSystem) (path : PathLib)
  (filepath : string) (termGroups : list termGroup) (results : gmap string nat) :
  countOccurrences fs filepath termGroups = Some results ->
  exists cells,
    csvRow path termGroups (filepath, results) = Text (basename path filepath) :: cells
    /\ Forall2
         (fun (g : termGroup) c =>
            if String.eqb (fst g) JsObject.protoKey
            then c = Value JsObject.Inherited
            else exists n, c = Value (JsObject.Num n))
         termGroups cells.
Proof.
  rewrite countOccurrences_eq. destruct (readFile fs filepath) as [content|]; [|discriminate].
  intros [= <-]. eexists. split; [reflexivity|]. cbn [snd].
  set (results := fold_left _ termGroups ∅).
  assert (Hk : forall k, In k (List.map fst termGroups) ->
                  k <> JsObject.protoKey -> is_Some (results !! k)).
  { intros k Hin Hne. apply recordGroups_keys. right. now split. }
  assert (Hp : results !! JsObject.protoKey = None).
  { unfold results. now rewrite recordGroups_protoKey. }
  clearbody results. induction termGroups as [|[g t] rest IH]; [constructor|].
  cbn [List.map]. constructor.
  - cbn [fst]. unfold JsObject.get. destruct (String.eqb g JsObject.protoKey) eqn:E.
    + apply String.eqb_eq in E. subst g. now rewrite Hp.
    + apply String.eqb_neq in E. destruct (Hk g) as [n Hn]; [now left|exact E|].
      rewrite Hn. now exists n.
  - apply IH. intros k Hin. apply Hk. now right.
Qed.

Lemma cells_are_numbers_except_under_proto_witness :
  exists results,
    countOccurrences Fixture.fs "docs/a.txt" [("__proto__", ["cat"]); ("cat", ["cat"])]
    = Some results
    /\ exists cells,
        csvRow Fixture.path [("__proto__", ["cat"]); ("cat", ["cat"])] ("docs/a.txt", results)
        = Text (basename Fixture.path "docs/a.txt") :: cells
        /\ Forall2
             (fun (g : termGroup) c =>
                if String.eqb (fst g) JsObject.protoKey
                then c = Value JsObject.Inherited
                else exists n, c = Value (JsObject.Num n))
             [("__proto__", ["cat"]); ("cat", ["cat"])] cells.
Proof.
  eexists. split; [vm_compute; reflexivity|].
  apply (cells_are_numbers_except_under_proto Fixture.fs Fixture.path "docs/a.txt").
  vm_compute. reflexivity.
Defined.

(** * The time stamp in the names of what is written *)

Lemma digit_plain (n : nat) :
  Char.mem (digit n) [":"; "."]%char = false /\ Char.eqb (digit n) "T" = false.
Proof.
  unfold digit. pose proof (Nat.mod_upper_bound n 10 ltac:(lia)) as H.
  destruct (n mod 10) as [|m]; [now vm_compute|].
  do 9 (destruct m as [|m]; [now vm_compute|]). lia.
Qed.

Lemma removeAll_keep (cls : list ascii) (c : ascii) (s : string) :
  Char.mem c cls = false ->
  Text.removeAll cls (String c s) = String c (Text.removeAll cls s).
Proof. intros H. cbn. now rewrite H. Qed.

Lemma removeAll_drop (cls : list ascii) (c : ascii) (s : string) :
  Char.mem c cls = true ->
  Text.removeAll cls (String c s) = Text.removeAll cls s.
Proof. intros H. cbn. now rewrite H. Qed.

Lemma contains_T_digit (n : nat) (s : string) :
  Str.contains "T" (String (digit n) s) = Str.contains "T" s.
Proof. cbn [Str.contains]. now rewrite (proj2 (digit_plain n)). Qed.

Lemma contains_skip (sep c : ascii) (s : string) :
  Char.eqb c sep = false -> Str.contains sep (String c s) = Str.contains sep s.
Proof. intros H. cbn [Str.contains]. now rewrite H. Qed.

Opaque digit.

Lemma timestamp_toISOString (d : Date) :
  timestamp (toISOString d)
  = pad4 (year d) +^ "-" +^ pad2 (month d) +^ "-" +^ pad2 (day d) +^ "_"
    +^ pad2 (hours d) +^ pad2 (minutes d).
Proof.
  unfold timestamp, toISOString, pad4, pad3, pad2. cbn [Str.append].
  repeat first
    [ rewrite removeAll_keep by (reflexivity || apply digit_plain)
    | rewrite removeAll_drop by reflexivity ].
  change (Text.removeAll _ "") with "".
  match goal with
  | |- context [Str.split "T"%char ?s] =>
      change s with
        ((pad4 (year d) +^ "-" +^ pad2 (month d) +^ "-" +^ pad2 (day d))
         +^ String "T"
              (pad2 (hours d) +^ pad2 (minutes d) +^ pad2 (seconds d)
               +^ pad3 (milliseconds d) +^ "Z"))
  end.
  rewrite split_append_sep, split_free.
  - reflexivity.
  - unfold pad3, pad2. cbn [Str.append].
    repeat first [rewrite contains_T_digit | rewrite contains_skip by reflexivity].
    reflexivity.
  - unfold pad4, pad3, pad2. cbn [Str.append].
    repeat first [rewrite contains_T_digit | rewrite contains_skip by reflexivity].
    reflexivity.
Qed.

Transparent digit.

(** X15.  The time stamp both scripts put in the names of what they write is
    the date with its dashes, an underscore, and the hour and minute: fifteen
    characters of the form [YYYY-MM-DD_HHMM], without the seconds.  Two runs
    within the same minute therefore write the table to the same file, and
    the extracted texts to the same directory. *)
Theorem time_stamp_stops_at_the_minute (path : PathLib) (d1 d2 : Date) :
  validDate d1 -> validDate d2 ->
  year d1 = year d2 -> month d1 = month d2 -> day d1 = day d2 ->
  hours d1 = hours d2 -> minutes d1 = minutes d2 ->
  timestamp (toISOString d1)
  = pad4 (year d1) +^ "-" +^ pad2 (month d1) +^ "-" +^ pad2 (day d1) +^ "_"
    +^ pad2 (hours d1) +^ pad2 (minutes d1)
  /\ Text.length (timestamp (toISOString d1)) = 15
  /\ searchResultsFile path d1 = searchResultsFile path d2
  /\ PdfExtractor.outputDirOf path d1 = PdfExtractor.outputDirOf path d2.
Proof.
  intros _ _ Hy Hm Hd Hh Hn.
  assert (H12 : timestamp (toISOString d1) = timestamp (toISOString d2)).
  { rewrite !timestamp_toISOString. now rewrite Hy, Hm, Hd, Hh, Hn. }
  split; [apply timestamp_toISOString|]. split.
  - rewrite timestamp_toISOString. reflexivity.
  - unfold searchResultsFile, PdfExtractor.outputDirOf. now rewrite H12.
Qed.

Lemma time_stamp_stops_at_the_minute_witness :
  timestamp (toISOString
               {| year := 2024; month := 1; day := 15; hours := 10; minutes := 30;
                  seconds := 45; milliseconds := 123 |})
  = "2024-01-15_1030"
  /\ searchResultsFile Fixture.path
       {| year := 2024; month := 1; day := 15; hours := 10; minutes := 30;
          seconds := 45; milliseconds := 123 |}
     = searchResultsFile Fixture.path
         {| year := 2024; month := 1; day := 15; hours := 10; minutes := 30;
            seconds := 59; milliseconds := 0 |}.
Proof.
  pose proof (time_stamp_stops_at_the_minute Fixture.path
    {| year := 2024; month := 1; day := 15; hours := 10; minutes := 30;
       seconds := 45; milliseconds := 123 |}
    {| year := 2024; month := 1; day := 15; hours := 10; minutes := 30;
       seconds := 59; milliseconds := 0 |}) as H.
  destruct H as (H1 & _ & H3 & _);
    [ unfold validDate; cbn [year month day hours minutes seconds milliseconds]; lia
    | unfold validDate; cbn [year month day hours minutes seconds milliseconds]; lia
    | reflexivity.. | ].
  split; [exact H1|exact H3].
Defined.


(** * The PDF text extractor *)

Lemma allWhiteSpace_append (a b : string) :
  allWhiteSpace (a +^ b) = allWhiteSpace a && allWhiteSpace b.
Proof.
  induction a as [|c a IH]; [reflexivity|]. cbn. rewrite IH. now rewrite andb_assoc.
Qed.

Lemma trim_empty (s : string) : Str.isEmpty (Str.trim s) = allWhiteSpace s.
Proof.
  destruct (allWhiteSpace s) eqn:E.
  - unfold Str.trim. now rewrite trimStart_allWhiteSpace.
  - destruct (Str.trim s) as [|c t] eqn:Et; [|reflexivity].
    destruct (trim_spec s) as (a & b & Hs & Ha & Hb & _).
    rewrite Et in Hs. cbn in Hs. rewrite Hs, allWhiteSpace_append, Ha, Hb in E.
    discriminate.
Qed.

(** X16.  A list file is read back line for line: when no path holds a
    newline and none is blank, listing the paths one per line gives exactly
    those paths, unchanged; white space at the ends of a line is part of the
    path (a carriage return before the newline stays in it). *)
Theorem listed_paths_are_kept_as_written (lines : list string) :
  Forall (fun line => Str.contains newline line = false /\ allWhiteSpace line = false) lines ->
  PdfExtractor.pdfPathsOf (Str.join newline lines) = lines.
Proof.
  intros H. unfold PdfExtractor.pdfPathsOf.
  destruct lines as [|l r]; [reflexivity|].
  rewrite split_join_inverse; [| |discriminate].
  - induction H as [|x xs [_ Hx] Hxs IH]; [reflexivity|].
    cbn [List.filter]. unfold Text.truthy at 1. rewrite trim_empty, Hx. cbn [negb].
    now rewrite IH.
  - eapply List.Forall_impl; [|exact H]. cbn. tauto.
Qed.

Lemma listed_paths_are_kept_as_written_witness :
  PdfExtractor.pdfPathsOf
    (Str.join newline [" in/a.pdf" +^ String "013"%char ""; "in/b c.pdf"])
  = [" in/a.pdf" +^ String "013"%char ""; "in/b c.pdf"].
Proof.
  apply (listed_paths_are_kept_as_written
           [" in/a.pdf" +^ String "013"%char ""; "in/b c.pdf"]).
  repeat constructor.
Defined.

Lemma replaceAll_contains (x y : ascii) (s : string) :
  Char.eqb y x = false -> Str.contains x (Text.replaceAll x y s) = false.
Proof.
  intros Hxy. induction s as [|c r IH]; [reflexivity|].
  cbn. rewrite IH. destruct (Char.eqb c x) eqn:E; [now rewrite Hxy|now rewrite E].
Qed.

Lemma replaceAll_free (x y : ascii) (s : string) :
  Str.contains x s = false -> Text.replaceAll x y s = s.
Proof.
  induction s as [|c r IH]; [reflexivity|].
  cbn. intros H. apply orb_false_iff in H as [Hc Hr]. now rewrite Hc, IH.
Qed.

Lemma join_free (sep c : ascii) (l : list string) :
  Char.eqb sep c = false ->
  Forall (fun piece => Str.contains c piece = false) l ->
  Str.contains c (Str.join sep l) = false.
Proof.
  intros Hsep. induction 1 as [|s l Hs Hl IH]; [reflexivity|].
  destruct l as [|t l']; [exact Hs|].
  rewrite join_cons, contains_append, Hs. cbn [Str.contains orb].
  now rewrite Hsep, IH.
Qed.

Lemma join_pieces_free (sep c : ascii) (l : list string) :
  Str.contains c (Str.join sep l) = false ->
  Forall (fun piece => Str.contains c piece = false) l.
Proof.
  induction l as [|s l IH]; [constructor|].
  destruct l as [|t l'].
  - cbn. now repeat constructor.
  - rewrite join_cons, contains_append. intros H.
    apply orb_false_iff in H as [Hs Hr]. constructor; [exact Hs|].
    cbn [Str.contains] in Hr. apply orb_false_iff in Hr as [_ Hr]. now apply IH.
Qed.

Lemma lastN_Forall {A : Type} (P : A -> Prop) (n : nat) (l : list A) :
  Forall P l -> Forall P (Text.lastN n l).
Proof.
  unfold Text.lastN. generalize (length l - n) as k. intros k H. revert k.
  induction H as [|x l Hx Hl IH]; intros [|k]; cbn; auto.
Qed.

Lemma stripPdf_prefix (s : string) : exists t, s = PdfExtractor.stripPdf s +^ t.
Proof.
  induction s as [|c r [t Ht]]; [now exists ""|].
  cbn [PdfExtractor.stripPdf]. destruct (PdfExtractor.isPdfExtension (String c r)).
  - now exists (String c r).
  - exists t. cbn. now rewrite <- Ht.
Qed.

Lemma stripPdf_free (c : ascii) (s : string) :
  Str.contains c s = false -> Str.contains c (PdfExtractor.stripPdf s) = false.
Proof.
  destruct (stripPdf_prefix s) as [t Ht]. intros H.
  rewrite Ht, contains_append in H. now apply orb_false_iff in H as [H _].
Qed.

(** X17.  The name made for the output of a listed path never holds a slash
    or a backslash, whatever the path: what is joined to the output directory
    is a single file name. *)
Theorem output_name_has_no_separator (pdfPath : string) :
  Str.contains slash (PdfExtractor.baseName pdfPath) = false
  /\ Str.contains backslash (PdfExtractor.baseName pdfPath) = false.
Proof.
  unfold PdfExtractor.baseName.
  set (normal := Text.replaceAll backslash slash pdfPath).
  assert (Hb : Str.contains backslash normal = false)
    by (apply replaceAll_contains; reflexivity).
  pose proof (split_pieces_free slash normal) as Hs.
  rewrite <- (split_join slash normal) in Hb. apply join_pieces_free in Hb.
  split; apply stripPdf_free, join_free; try reflexivity; now apply lastN_Forall.
Qed.

(** X18.  Two listed paths can get the same output name, the later text then
    replacing the earlier: a slash between two parts and a dash in its place
    give the same name. *)
Theorem slash_and_dash_give_the_same_name (a b : string) :
  Str.contains slash a = false -> Str.contains backslash a = false ->
  Str.contains slash b = false -> Str.contains backslash b = false ->
  PdfExtractor.baseName (a +^ String slash b)
  = PdfExtractor.baseName (a +^ String "-"%char b)
  /\ a +^ String slash b <> a +^ String "-"%char b.
Proof.
  intros Hsa Hba Hsb Hbb. split.
  - unfold PdfExtractor.baseName.
    rewrite !replaceAll_free
      by (rewrite contains_append, Hba; cbn [Str.contains orb]; now rewrite Hbb).
    rewrite split_append_sep, (split_free slash b) by assumption.
    rewrite (split_free slash (a +^ String "-"%char b))
      by (rewrite contains_append, Hsa; cbn [Str.contains orb]; now rewrite Hsb).
    reflexivity.
  - clear. induction a as [|c a IH]; cbn; [discriminate|]. intros [= H]. now apply IH.
Qed.

Lemma slash_and_dash_give_the_same_name_witness :
  PdfExtractor.baseName ("2023" +^ String slash "report.pdf")
  = PdfExtractor.baseName ("2023" +^ String "-"%char "report.pdf")
  /\ "2023" +^ String slash "report.pdf" <> "2023" +^ String "-"%char "report.pdf".
Proof.
  apply (slash_and_dash_give_the_same_name "2023" "report.pdf"); reflexivity.
Defined.

(** X19.  Only the last five parts of a path count: whatever comes before
    them, two paths with the same last five parts get the same output name. *)
Theorem only_the_last_five_parts_count (before parts : list string) :
  length parts = 5 ->
  Forall (fun part => Str.contains slash part = false
                      /\ Str.contains backslash part = false) (before ++ parts) ->
  PdfExtractor.baseName (Str.join slash (before ++ parts))
  = PdfExtractor.baseName (Str.join slash parts).
Proof.
  intros Hlen Hall.
  assert (Hparts : Forall (fun part => Str.contains slash part = false
                                       /\ Str.contains backslash part = false) parts).
  { apply List.Forall_app in Hall. tauto. }
  assert (Hn : forall l,
             Forall (fun part => Str.contains slash part = false
                                 /\ Str.contains backslash part = false) l ->
             l <> [] ->
             Str.split slash (Text.replaceAll backslash slash (Str.join slash l)) = l).
  { intros l Hl Hne. rewrite replaceAll_free.
    - apply split_join_inverse; [|exact Hne].
      eapply List.Forall_impl; [|exact Hl]. cbn. tauto.
    - apply join_free; [reflexivity|].
      eapply List.Forall_impl; [|exact Hl]. cbn. tauto. }
  unfold PdfExtractor.baseName.
  rewrite (Hn _ Hall), (Hn _ Hparts);
    try (intros E; apply (f_equal (@length string)) in E;
         rewrite ?List.length_app, Hlen in E; cbn in E; lia).
  do 2 f_equal. unfold Text.lastN.
  rewrite List.length_app, Hlen.
  replace (length before + 5 - 5) with (length before) by lia.
  replace (5 - 5) with 0 by lia.
  rewrite List.skipn_app, List.skipn_all, Nat.sub_diag. reflexivity.
Qed.

Lemma only_the_last_five_parts_count_witness :
  PdfExtractor.baseName (Str.join slash (["home"; "ann"] ++ ["a"; "b"; "c"; "d"; "e.pdf"]))
  = PdfExtractor.baseName (Str.join slash ["a"; "b"; "c"; "d"; "e.pdf"]).
Proof.
  apply (only_the_last_five_parts_count ["home"; "ann"] ["a"; "b"; "c"; "d"; "e.pdf"]).
  - reflexivity.
  - repeat constructor.
Defined.

Lemma length_append (a b : string) :
  Text.length (a +^ b) = Text.length a + Text.length b.
Proof. induction a as [|c a IH]; cbn; congruence. Qed.

Lemma isPdfExtension_shape (ext : string) :
  PdfExtractor.isPdfExtension ext = true ->
  Text.length ext = 4
  /\ Str.contains slash ext = false /\ Str.contains backslash ext = false.
Proof.
  destruct ext as [|a [|b [|c [|d [|e r]]]]]; try discriminate.
  cbn [PdfExtractor.isPdfExtension]. intros H.
  apply andb_true_iff in H as [H Hd]. apply andb_true_iff in H as [H Hc].
  apply andb_true_iff in H as [Ha Hb].
  apply char_eqb_eq in Ha. subst a.
  apply orb_true_iff in Hb, Hc, Hd.
  destruct Hb as [Hb|Hb], Hc as [Hc|Hc], Hd as [Hd|Hd];
    apply char_eqb_eq in Hb, Hc, Hd; subst b c d; repeat split; reflexivity.
Qed.

Lemma stripPdf_append (s ext : string) :
  PdfExtractor.isPdfExtension ext = true -> PdfExtractor.stripPdf (s +^ ext) = s.
Proof.
  intros Hext. induction s as [|c r IH].
  - cbn [Str.append]. destruct ext as [|a e]; [discriminate|].
    cbn [PdfExtractor.stripPdf]. now rewrite Hext.
  - cbn [Str.append PdfExtractor.stripPdf].
    destruct (PdfExtractor.isPdfExtension (String c (r +^ ext))) eqn:E.
    + apply isPdfExtension_shape in E as [E _]. apply isPdfExtension_shape in Hext as [H4 _].
      cbn [Text.length] in E. rewrite length_append, H4 in E. lia.
    + now rewrite IH.
Qed.

(** X20.  A final [.pdf], in small or capital letters, is dropped from the
    name: a path of one part made of a name and that extension gets the name
    alone. *)
Theorem pdf_extension_is_dropped (name ext : string) :
  Str.contains slash name = false -> Str.contains backslash name = false ->
  PdfExtractor.isPdfExtension ext = true ->
  PdfExtractor.baseName (name +^ ext) = name.
Proof.
  intros Hs Hb Hext. destruct (isPdfExtension_shape ext Hext) as (_ & Hse & Hbe).
  unfold PdfExtractor.baseName.
  rewrite replaceAll_free by (now rewrite contains_append, Hb, Hbe).
  rewrite split_free by (now rewrite contains_append, Hs, Hse).
  cbn. now apply stripPdf_append.
Qed.

Lemma pdf_extension_is_dropped_witness :
  PdfExtractor.baseName ("Annual Report" +^ ".PdF") = "Annual Report".
Proof.
  apply (pdf_extension_is_dropped "Annual Report" ".PdF"); reflexivity.
Defined.

Lemma savedText_extract (env : PdfExtractor.Env) (pdfPath : string) :
  savedText env pdfPath
  = match PdfExtractor.extractTextFromPdfFile env pdfPath with
    | Some text => if Text.truthy text then Some text else None
    | None => None
    end.
Proof.
  unfold savedText, PdfExtractor.extractTextFromPdfFile, Text.truthy.
  destruct (PdfExtractor.readBuffer env pdfPath) as [buffer|]; [|reflexivity].
  destruct (PdfExtractor.pdf env buffer) as [text|]; [|reflexivity].
  now destruct (Str.isEmpty (Str.trim text)).
Qed.

Lemma savedFiles_cons (env : PdfExtractor.Env) (path : PathLib) (outputDir p : string)
  (rest : list string) :
  savedFiles env path outputDir (p :: rest)
  = match savedText env p with
    | Some text =>
        WriteFile (join path outputDir (PdfExtractor.baseName p +^ ".txt")) text
          :: savedFiles env path outputDir rest
    | None => savedFiles env path outputDir rest
    end.
Proof. unfold savedFiles. cbn. now destruct (savedText env p). Qed.

Lemma pdfLoop_run (env : PdfExtractor.Env) (path : PathLib) (outputDir : string)
  (pdfPaths : list string) (count : nat) (done : list action) :
  exists written rest,
    savedFiles env path outputDir pdfPaths = written ++ rest
    /\ actions (PdfExtractor.pdfLoop env path outputDir pdfPaths count done) = done ++ written
    /\ successCount (PdfExtractor.pdfLoop env path outputDir pdfPaths count done)
       = count + length written
    /\ Forall (writeSucceeds env) written
    /\ (if finished (PdfExtractor.pdfLoop env path outputDir pdfPaths count done)
        then rest = []
        else exists a rest', rest = a :: rest' /\ writeFails env a).
Proof.
  revert count done. induction pdfPaths as [|p ps IH]; intros count done.
  - exists [], []. cbn. rewrite app_nil_r. repeat split; auto.
  - rewrite savedFiles_cons, savedText_extract. cbn [PdfExtractor.pdfLoop].
    destruct (PdfExtractor.extractTextFromPdfFile env p) as [text|]; [|apply IH].
    destruct (Text.truthy text); [|apply IH].
    unfold PdfExtractor.outputFilename.
    set (file := join path outputDir (PdfExtractor.baseName p +^ ".txt")).
    destruct (PdfExtractor.writeFile env file text) as [u|e] eqn:Ew.
    + destruct (IH (S count) (done ++ [WriteFile file text]))
        as (written & rest & Hs & Ha & Hc & Hok & Hf).
      exists (WriteFile file text :: written), rest.
      rewrite Hs, Ha, Hc, <- app_assoc. cbn [app length].
      split; [reflexivity|]. split; [reflexivity|]. split; [lia|].
      split; [|exact Hf]. constructor; [|exact Hok]. cbn. now rewrite Ew.
    + exists [], (WriteFile file text :: savedFiles env path outputDir ps).
      cbn. rewrite app_nil_r. repeat split; auto.
      eexists _, _. split; [reflexivity|]. cbn. now rewrite Ew.
Qed.

(** X21.  Once the list is read and the two directories are there, the
    documents are taken in the order of the list.  A document that cannot be
    read or parsed, or whose text is blank, is passed over and the next one is
    tried.  The texts of the other documents are written, each write
    succeeding, up to the first write that fails: that one ends the run, and
    nothing after it is written.  The count of successes is the number of
    texts written, and the run reaches its end exactly when no write
    failed. *)
Theorem documents_are_saved_in_order (env : PdfExtractor.Env) (path : PathLib)
  (fileListPath content : string) :
  PdfExtractor.readText env fileListPath = Ok content ->
  (forall dir, PdfExtractor.ensureDir env dir = Ok tt) ->
  let outputDir := PdfExtractor.outputDirOf path (PdfExtractor.now env) in
  let r := PdfExtractor.processPdfList env path fileListPath in
  exists written rest,
    savedFiles env path outputDir (PdfExtractor.pdfPathsOf content) = written ++ rest
    /\ actions r = [EnsureDir "data"; EnsureDir outputDir] ++ written
    /\ successCount r = length written
    /\ Forall (writeSucceeds env) written
    /\ (if finished r then rest = []
        else exists a rest', rest = a :: rest' /\ writeFails env a)
    /\ ((forall f t, PdfExtractor.writeFile env f t = Ok tt) -> finished r = true).
Proof.
  intros Hread Hdir outputDir r. subst r. unfold PdfExtractor.processPdfList.
  rewrite Hread, !Hdir. fold outputDir.
  destruct (pdfLoop_run env path outputDir (PdfExtractor.pdfPathsOf content) 0
              [EnsureDir "data"; EnsureDir outputDir])
    as (written & rest & Hs & Ha & Hc & Hok & Hf).
  exists written, rest. repeat split; auto.
  intros Hall. destruct (finished _); [reflexivity|].
  destruct Hf as ([d|f t] & rest' & _ & Hfail); cbn in Hfail; [contradiction|].
  rewrite Hall in Hfail. discriminate.
Qed.

Lemma documents_are_saved_in_order_witness :
  exists written rest,
    savedFiles PdfFixture.env Fixture.path
      (PdfExtractor.outputDirOf Fixture.path (PdfExtractor.now PdfFixture.env))
      (PdfExtractor.pdfPathsOf PdfFixture.list) = written ++ rest
    /\ actions (PdfExtractor.processPdfList PdfFixture.env Fixture.path "list.txt")
       = [EnsureDir "data";
          EnsureDir (PdfExtractor.outputDirOf Fixture.path (PdfExtractor.now PdfFixture.env))]
         ++ written
    /\ successCount (PdfExtractor.processPdfList PdfFixture.env Fixture.path "list.txt")
       = length written
    /\ Forall (writeSucceeds PdfFixture.env) written
    /\ (if finished (PdfExtractor.processPdfList PdfFixture.env Fixture.path "list.txt")
        then rest = []
        else exists a rest', rest = a :: rest' /\ writeFails PdfFixture.env a)
    /\ ((forall f t, PdfExtractor.writeFile PdfFixture.env f t = Ok tt) ->
        finished (PdfExtractor.processPdfList PdfFixture.env Fixture.path "list.txt") = true).
Proof.
  apply (documents_are_saved_in_order PdfFixture.env Fixture.path "list.txt" PdfFixture.list).
  - reflexivity.
  - reflexivity.
Defined.

Lemma savedFiles_origin (env : PdfExtractor.Env) (path : PathLib) (outputDir : string)
  (pdfPaths : list string) :
  Forall
    (fun a =>
       match a with
       | WriteFile file text =>
           text <> "" /\ Str.trim text = text
           /\ exists pdfPath buffer raw,
               In pdfPath pdfPaths
               /\ PdfExtractor.readBuffer env pdfPath = Ok buffer
               /\ PdfExtractor.pdf env buffer = Ok raw
               /\ text = Str.trim raw
               /\ file = join path outputDir (PdfExtractor.baseName pdfPath +^ ".txt")
       | EnsureDir _ => False
       end)
    (savedFiles env path outputDir pdfPaths).
Proof.
  induction pdfPaths as [|p ps IH]; [constructor|].
  rewrite savedFiles_cons.
  assert (IH' : Forall
    (fun a =>
       match a with
       | WriteFile file text =>
           text <> "" /\ Str.trim text = text
           /\ exists pdfPath buffer raw,
               In pdfPath (p :: ps)
               /\ PdfExtractor.readBuffer env pdfPath = Ok buffer
               /\ PdfExtractor.pdf env buffer = Ok raw
               /\ text = Str.trim raw
               /\ file = join path outputDir (PdfExtractor.baseName pdfPath +^ ".txt")
       | EnsureDir _ => False
       end)
    (savedFiles env path outputDir ps)).
  { eapply List.Forall_impl; [|exact IH]. intros [d|f t]; [tauto|].
    intros (H1 & H2 & q & b & raw & Hq & Hrest). repeat split; auto.
    exists q, b, raw. split; [now right|exact Hrest]. }
  unfold savedText.
  destruct (PdfExtractor.readBuffer env p) as [buffer|] eqn:Eb; [|exact IH'].
  destruct (PdfExtractor.pdf env buffer) as [raw|] eqn:Ep; [|exact IH'].
  destruct (Str.isEmpty (Str.trim raw)) eqn:E; [exact IH'|].
  constructor; [|exact IH']. repeat split.
  - intros H. rewrite H in E. discriminate.
  - apply trim_idempotent.
  - exists p, buffer, raw. repeat split; auto. now left.
Qed.

(** X22.  Whatever the files, the parser and the disk do, a run of the
    extractor ensures at most the directory [data] and then the output
    directory under it, each only after what precedes it succeeded, and after
    them it only writes texts of listed documents: every file written is the
    output directory joined with the name made for a path of the list and
    [.txt], its text is the trimmed text the parser gave for that path, not
    empty, and the write succeeded; the count of successes the run ends with
    is the number of texts written. *)
Theorem extractor_writes_only_clean_texts (env : PdfExtractor.Env) (path : PathLib)
  (fileListPath : string) :
  let outputDir := PdfExtractor.outputDirOf path (PdfExtractor.now env) in
  let listed :=
    match PdfExtractor.readText env fileListPath with
    | Ok content => PdfExtractor.pdfPathsOf content
    | Err _ => []
    end in
  let r := PdfExtractor.processPdfList env path fileListPath in
  exists dirs written,
    actions r = dirs ++ written
    /\ (dirs = []
        \/ (dirs = [EnsureDir "data"] /\ isErr (PdfExtractor.ensureDir env "data") = false)
        \/ (dirs = [EnsureDir "data"; EnsureDir outputDir]
            /\ isErr (PdfExtractor.ensureDir env "data") = false
            /\ isErr (PdfExtractor.ensureDir env outputDir) = false))
    /\ successCount r = length written
    /\ Forall
         (fun a =>
            match a with
            | WriteFile file text =>
                text <> "" /\ Str.trim text = text
                /\ isErr (PdfExtractor.writeFile env file text) = false
                /\ exists pdfPath buffer raw,
                    In pdfPath listed
                    /\ PdfExtractor.readBuffer env pdfPath = Ok buffer
                    /\ PdfExtractor.pdf env buffer = Ok raw
                    /\ text = Str.trim raw
                    /\ file = join path outputDir (PdfExtractor.baseName pdfPath +^ ".txt")
            | EnsureDir _ => False
            end)
         written.
Proof.
  intros outputDir listed r. subst r listed. unfold PdfExtractor.processPdfList.
  destruct (PdfExtractor.readText env fileListPath) as [content|];
    [|exists [], []; cbn; repeat split; auto].
  destruct (PdfExtractor.ensureDir env "data") eqn:Ed;
    [|exists [], []; cbn; repeat split; auto].
  fold outputDir.
  destruct (PdfExtractor.ensureDir env outputDir) eqn:Eo.
  2:{ exists [EnsureDir "data"], []. cbn. repeat split; auto. }
  destruct (pdfLoop_run env path outputDir (PdfExtractor.pdfPathsOf content) 0
              [EnsureDir "data"; EnsureDir outputDir])
    as (written & rest & Hs & Ha & Hc & Hok & _).
  exists [EnsureDir "data"; EnsureDir outputDir], written.
  split; [exact Ha|]. split; [do 2 right; repeat split|]. split; [exact Hc|].
  pose proof (savedFiles_origin env path outputDir (PdfExtractor.pdfPathsOf content)) as H.
  rewrite Hs in H. apply List.Forall_app in H as [H _].
  clear -H Hok. induction H as [|a l Ha Hl IH]; [constructor|].
  inversion Hok as [|? ? Hoka Hokl]; subst. constructor; [|now apply IH].
  destruct a as [d|f t]; [contradiction|]. cbn in Hoka. tauto.
Qed.
